(** * Asimov safety engine: a shallow embedding of
    [backend/python_api/core/asimov_rules.py]

    The engine gates every action of the agent against thirteen rules, a set
    of prohibited action types and eleven textual danger signatures, keeps an
    emergency-stop flag and a bounded audit log.

    Modelling choices, all taken from the Python source:
    - a context ([Dict[str, Any]]) is a [gmap string value];
    - Python values are the fragment [value] below: [None], [bool], [int],
      [str], [datetime], lists and string-keyed dicts (floats are left out);
    - a Python exception is the [Raise] branch of [result]; the mutable
      engine object is passed explicitly and returned next to the result, so
      that what an aborted call already wrote stays written;
    - clock readings ([datetime.utcnow()]) are arguments;
    - strings are Rocq strings, i.e. sequences of code points below 256, on
      which the [(?i)] flag of the signatures folds the ASCII letters only. *)

From Stdlib Require Import ZArith String Ascii List Bool Lia.
From stdpp Require Import gmap strings list pretty.

Local Open Scope string_scope.
Local Open Scope Z_scope.

(** ** Exceptions *)

Inductive exn := TypeError | NameError.

Inductive result (A : Type) :=
| Ok (a : A)
| Raise (e : exn).
Arguments Ok {A} a.
Arguments Raise {A} e.

Definition bind {A B} (m : result A) (k : A -> result B) : result B :=
  match m with
  | Ok a => k a
  | Raise e => Raise e
  end.

Notation "'do' x <- m ; k" := (bind m (fun x => k))
  (at level 10, x name, m at level 100, k at level 200).

(** ** Python values *)

#[local] Set Warnings "-register-all".

Inductive value :=
| VNone
| VBool (b : bool)
| VInt (n : Z)
| VStr (s : string)
| VDatetime (t : Z)
| VList (l : list value)
| VDict (d : list (string * value)).

(** [bool] is a subclass of [int]: [True == 1], [False < 1]. *)
Definition as_number (v : value) : option Z :=
  match v with
  | VBool b => Some (if b then 1 else 0)
  | VInt n => Some n
  | _ => None
  end.

Fixpoint dict_get {A} (k : string) (d : list (string * A)) : option A :=
  match d with
  | [] => None
  | (k', v) :: d' => if String.eqb k k' then Some v else dict_get k d'
  end.

(** [a == b]; it never raises on these values. *)
Fixpoint py_eq (a b : value) {struct a} : bool :=
  match a, b with
  | VNone, VNone => true
  | VStr s, VStr t => String.eqb s t
  | VDatetime s, VDatetime t => Z.eqb s t
  | VList l1, VList l2 =>
      (fix go (l1 l2 : list value) : bool :=
         match l1, l2 with
         | [], [] => true
         | x :: l1', y :: l2' => py_eq x y && go l1' l2'
         | _, _ => false
         end) l1 l2
  | VDict d1, VDict d2 =>
      Nat.eqb (length d1) (length d2) &&
      (fix go (d : list (string * value)) : bool :=
         match d with
         | [] => true
         | (k, v) :: d' =>
             match dict_get k d2 with
             | Some w => py_eq v w
             | None => false
             end && go d'
         end) d1
  | _, _ =>
      match as_number a, as_number b with
      | Some x, Some y => Z.eqb x y
      | _, _ => false
      end
  end.

(** [bool(v)]. *)
Definition truthy (v : value) : bool :=
  match v with
  | VNone => false
  | VBool b => b
  | VInt n => negb (Z.eqb n 0)
  | VStr s => negb (String.eqb s "")
  | VDatetime _ => true
  | VList l => match l with [] => false | _ => true end
  | VDict d => match d with [] => false | _ => true end
  end.

(** The comparison operators the rule conditions use. *)
Inductive cmpop := OpEq | OpLt | OpGt | OpGtE.

Definition holds (op : cmpop) (c : comparison) : bool :=
  match op, c with
  | OpEq, Eq => true
  | OpLt, Lt => true
  | OpGt, Gt => true
  | OpGtE, (Eq | Gt) => true
  | _, _ => false
  end.

(** [a < b], [a > b], [a >= b]: numbers with numbers, strings with strings
    (by code point), datetimes with datetimes, lists with lists (the first
    pair of unequal items decides, else the lengths); anything else is a
    [TypeError]. *)
Fixpoint py_order (op : cmpop) (a b : value) {struct a} : result bool :=
  match a, b with
  | VStr s, VStr t => Ok (holds op (String.compare s t))
  | VDatetime s, VDatetime t => Ok (holds op (Z.compare s t))
  | VList l1, VList l2 =>
      (fix go (l1 l2 : list value) : result bool :=
         match l1, l2 with
         | [], [] => Ok (holds op Eq)
         | [], _ :: _ => Ok (holds op Lt)
         | _ :: _, [] => Ok (holds op Gt)
         | x :: l1', y :: l2' =>
             if py_eq x y then go l1' l2' else py_order op x y
         end) l1 l2
  | _, _ =>
      match as_number a, as_number b with
      | Some x, Some y => Ok (holds op (Z.compare x y))
      | _, _ => Raise TypeError
      end
  end.

Definition py_compare (op : cmpop) (a b : value) : result value :=
  match op with
  | OpEq => Ok (VBool (py_eq a b))
  | _ => do r <- py_order op a b; Ok (VBool r)
  end.

(** ** Rule conditions

    [SafetyRule.condition] is the text of a Python expression handed to
    [eval]. The thirteen texts use names, constants, [in] with a list display
    of constants, the comparisons above and [and]; [expr] is their syntax
    tree. *)

Inductive expr :=
| EName (x : string)
| EConst (v : value)
| EIn (e : expr) (items : list value)
| ECompare (l : expr) (op : cmpop) (r : expr)
| EAnd (l r : expr).

(** [eval(condition, {"__builtins__": {}}, locals)]: a name that is not a key
    of [locals] is a [NameError] (the globals hold no names and the builtins
    table is empty). *)
Fixpoint eval (locals : gmap string value) (e : expr) : result value :=
  match e with
  | EName x =>
      match locals !! x with
      | Some v => Ok v
      | None => Raise NameError
      end
  | EConst v => Ok v
  | EIn e items =>
      do v <- eval locals e;
      Ok (VBool (existsb (fun i => py_eq i v) items))
  | ECompare l op r =>
      do a <- eval locals l;
      do b <- eval locals r;
      py_compare op a b
  | EAnd l r =>
      do a <- eval locals l;
      if truthy a then eval locals r else Ok a
  end.

(** ** Danger signatures

    The keys of [dangerous_patterns] are regular expressions. [regex] is the
    syntax they use; a literal letter is matched without regard to case (every
    signature starts with [(?i)]) and [Dot] is any character but a newline.
    [Nothing] only arises in derivatives. *)

Inductive regex :=
| Nothing
| Eps
| Chr (c : ascii)
| Dot
| Alt (r s : regex)
| Cat (r s : regex)
| Star (r : regex).

Definition lower (c : ascii) : ascii :=
  let n := nat_of_ascii c in
  if ((65 <=? n) && (n <=? 90))%nat then ascii_of_nat (n + 32) else c.

Fixpoint nullable (r : regex) : bool :=
  match r with
  | Nothing | Chr _ | Dot => false
  | Eps | Star _ => true
  | Alt r s => nullable r || nullable s
  | Cat r s => nullable r && nullable s
  end.

(** What is left of [r] to match after reading the character [c]. *)
Fixpoint deriv (c : ascii) (r : regex) : regex :=
  match r with
  | Nothing | Eps => Nothing
  | Chr p => if Ascii.eqb (lower c) (lower p) then Eps else Nothing
  | Dot => if Ascii.eqb c "010" then Nothing else Eps
  | Alt r s => Alt (deriv c r) (deriv c s)
  | Cat r s =>
      if nullable r then Alt (Cat (deriv c r) s) (deriv c s)
      else Cat (deriv c r) s
  | Star r => Cat (deriv c r) (Star r)
  end.

(** Some prefix of [s] matches [r]. *)
Fixpoint match_prefix (r : regex) (s : string) : bool :=
  nullable r ||
  match s with
  | EmptyString => false
  | String c s' => match_prefix (deriv c r) s'
  end.

(** [re.search(r, s)] finds a match: at some position of [s] a match of [r]
    starts. *)
Fixpoint re_search (r : regex) (s : string) : bool :=
  match_prefix r s ||
  match s with
  | EmptyString => false
  | String _ s' => re_search r s'
  end.

(** A run of literal characters in which [.] is the wildcard. *)
Fixpoint wild (s : string) : regex :=
  match s with
  | EmptyString => Eps
  | String c s' => Cat (if Ascii.eqb c "." then Dot else Chr c) (wild s')
  end.

(** [(w1|w2|...)]. *)
Definition alts (ws : list string) : regex :=
  fold_right (fun w r => Alt (wild w) r) Nothing ws.

(** [(w1|w2|...).*tail]. *)
Definition alts_then (ws : list string) (tail : string) : regex :=
  Cat (alts ws) (Cat (Star Dot) (wild tail)).

(** ** Enumerations and records *)

Inductive SafetyLevel := SAFE | CAUTION | DANGEROUS | PROHIBITED.

Inductive AsimovLaw := FIRST | SECOND | THIRD.

#[global] Instance SafetyLevel_eq_dec : EqDecision SafetyLevel.
Proof. solve_decision. Defined.

#[global] Instance AsimovLaw_eq_dec : EqDecision AsimovLaw.
Proof. solve_decision. Defined.

(** [SafetyLevel.value]. *)
Definition SafetyLevel_value (l : SafetyLevel) : string :=
  match l with
  | SAFE => "safe"
  | CAUTION => "caution"
  | DANGEROUS => "dangerous"
  | PROHIBITED => "prohibited"
  end.

(** [SafetyLevel] derives from [Enum], which defines no ordering: [a > b] on
    two of its members raises [TypeError]. *)
Definition SafetyLevel_gt (a b : SafetyLevel) : result bool := Raise TypeError.

(** The builtin [max(a, b)]: it asks whether [b > a] and keeps [b] if so. *)
Definition py_max (a b : SafetyLevel) : result SafetyLevel :=
  do gt <- SafetyLevel_gt b a;
  Ok (if gt then b else a).

Module SafetyRule.
Record t := mk {
  id : string;
  law : AsimovLaw;
  name : string;
  description : string;
  condition : expr;
  action : string;
  priority : Z;
  enabled : bool
}.
End SafetyRule.

Module SafetyCheck.
(** [approved] is whatever the [and]/[or] chain of [validate_action] yields,
    which may be the caller's [operator_approved] value itself. *)
Record t := mk {
  approved : value;
  violated_laws : list AsimovLaw;
  violated_rules : list string;
  safety_level : SafetyLevel;
  reason : string;
  recommendations : list string;
  requires_approval : bool;
  approval_level : string
}.
End SafetyCheck.

Module LogEntry.
Record t := mk {
  timestamp : Z;
  action_type : string;
  context : gmap string value;
  result : SafetyCheck.t;
  emergency_stop_active : bool
}.
End LogEntry.

(** The engine object. [rules] is the insertion-ordered dict from rule id to
    rule; [operator_overrides] is never read or written and is left out. *)
Record AsimovSafetyEngine := {
  rules : list (string * SafetyRule.t);
  prohibited_actions : gset string;
  dangerous_patterns : list (regex * string);
  emergency_stop_active : bool;
  safety_logs : list LogEntry.t
}.

(** [__init__]. *)
Definition new_engine : AsimovSafetyEngine :=
  {| rules := [];
     prohibited_actions := ∅;
     dangerous_patterns := [];
     emergency_stop_active := false;
     safety_logs := [] |}.

(** [d[k] = v] on an insertion-ordered dict: an existing key keeps its place. *)
Fixpoint dict_set {A} (k : string) (v : A) (d : list (string * A)) : list (string * A) :=
  match d with
  | [] => [(k, v)]
  | (k', v') :: d' =>
      if String.eqb k k' then (k, v) :: d' else (k', v') :: dict_set k v d'
  end.

(** [list(set(xs))]: the members of [xs], each once. Python fixes no order
    for them; no statement below depends on the one chosen here. *)
Definition list_set {A} `{EqDecision A} (xs : list A) : list A := remove_dups xs.

(** ** The rule catalogue ([_load_core_rules]) *)

(** [x in ['a', 'b', ...]]. *)
Definition name_in (x : string) (items : list string) : expr :=
  EIn (EName x) (map VStr items).

(** [x == True]. *)
Definition is_true (x : string) : expr :=
  ECompare (EName x) OpEq (EConst (VBool true)).

Definition fl_001 : SafetyRule.t :=
  SafetyRule.mk "fl_001" FIRST "No Human Harm"
    "Prevent any action that could directly harm humans"
    (name_in "action_type" ["physical_access"; "social_engineering"; "doxxing"])
    "block" 1 true.

Definition fl_002 : SafetyRule.t :=
  SafetyRule.mk "fl_002" FIRST "No Critical Infrastructure Attack"
    "Prevent attacks on critical infrastructure"
    (name_in "target_type" ["hospital"; "power_grid"; "water_supply"; "emergency_services"])
    "block" 1 true.

Definition fl_003 : SafetyRule.t :=
  SafetyRule.mk "fl_003" FIRST "No Personal Data Exposure"
    "Prevent exposure of personal sensitive data"
    (name_in "data_type" ["pii"; "medical"; "financial"; "personal"])
    "require_approval" 2 true.

Definition fl_004 : SafetyRule.t :=
  SafetyRule.mk "fl_004" FIRST "No Destructive Operations"
    "Prevent destructive operations that could cause harm"
    (name_in "operation_type" ["delete"; "destroy"; "corrupt"; "wipe"])
    "require_approval" 2 true.

Definition fl_005 : SafetyRule.t :=
  SafetyRule.mk "fl_005" FIRST "Privacy Protection"
    "Protect individual privacy rights"
    (is_true "involves_private_data")
    "require_justification" 3 true.

Definition sl_001 : SafetyRule.t :=
  SafetyRule.mk "sl_001" SECOND "Operator Command Authority"
    "Follow authenticated operator commands"
    (is_true "operator_authenticated")
    "allow" 4 true.

(** [emergency_override == True and authorization_level >= 'admin'] *)
Definition sl_002 : SafetyRule.t :=
  SafetyRule.mk "sl_002" SECOND "Emergency Override"
    "Allow emergency override by authorized personnel"
    (EAnd (is_true "emergency_override")
          (ECompare (EName "authorization_level") OpGtE (EConst (VStr "admin"))))
    "allow_with_logging" 3 true.

Definition sl_003 : SafetyRule.t :=
  SafetyRule.mk "sl_003" SECOND "Command Validation"
    "Validate commands don't violate First Law"
    (is_true "command_violates_first_law")
    "block" 1 true.

(** [operator_permission_level < required_permission_level] *)
Definition sl_004 : SafetyRule.t :=
  SafetyRule.mk "sl_004" SECOND "Authorization Check"
    "Ensure operator has required permissions"
    (ECompare (EName "operator_permission_level") OpLt (EName "required_permission_level"))
    "block" 2 true.

Definition tl_001 : SafetyRule.t :=
  SafetyRule.mk "tl_001" THIRD "System Protection"
    "Protect system integrity and availability"
    (is_true "action_threatens_system")
    "require_approval" 5 true.

(** [resource_usage > 90] *)
Definition tl_002 : SafetyRule.t :=
  SafetyRule.mk "tl_002" THIRD "Resource Protection"
    "Prevent resource exhaustion"
    (ECompare (EName "resource_usage") OpGt (EConst (VInt 90)))
    "limit_operations" 6 true.

(** [action_type == 'modify_logs'] *)
Definition tl_003 : SafetyRule.t :=
  SafetyRule.mk "tl_003" THIRD "Data Integrity"
    "Protect mission logs and evidence"
    (ECompare (EName "action_type") OpEq (EConst (VStr "modify_logs")))
    "block" 4 true.

Definition tl_004 : SafetyRule.t :=
  SafetyRule.mk "tl_004" THIRD "Network Security"
    "Maintain secure communications"
    (is_true "communication_insecure")
    "require_encryption" 5 true.

Definition first_law_rules : list SafetyRule.t :=
  [fl_001; fl_002; fl_003; fl_004; fl_005].

Definition second_law_rules : list SafetyRule.t :=
  [sl_001; sl_002; sl_003; sl_004].

Definition third_law_rules : list SafetyRule.t :=
  [tl_001; tl_002; tl_003; tl_004].

Definition all_rules : list SafetyRule.t :=
  first_law_rules ++ second_law_rules ++ third_law_rules.

(** [self.rules[rule.id] = rule]: the whole of rule registration. *)
Definition register_rule (rule : SafetyRule.t) (self : AsimovSafetyEngine) : AsimovSafetyEngine :=
  {| rules := dict_set (SafetyRule.id rule) rule (rules self);
     prohibited_actions := prohibited_actions self;
     dangerous_patterns := dangerous_patterns self;
     emergency_stop_active := emergency_stop_active self;
     safety_logs := safety_logs self |}.

Definition _load_core_rules (self : AsimovSafetyEngine) : AsimovSafetyEngine :=
  fold_left (fun e rule => register_rule rule e) all_rules self.

Definition core_prohibited_actions : gset string :=
  {[ "physical_attack"; "weapon_systems"; "explosive_devices";
     "power_grid_attack"; "water_supply_attack"; "hospital_systems_attack";
     "emergency_services_attack"; "air_traffic_control_attack";
     "doxxing"; "stalking"; "harassment"; "identity_theft"; "financial_fraud";
     "data_destruction"; "system_corruption"; "permanent_damage";
     "unauthorized_surveillance"; "private_data_theft"; "medical_record_access" ]}.

Definition _initialize_prohibited_actions (self : AsimovSafetyEngine) : AsimovSafetyEngine :=
  {| rules := rules self;
     prohibited_actions := core_prohibited_actions;
     dangerous_patterns := dangerous_patterns self;
     emergency_stop_active := emergency_stop_active self;
     safety_logs := safety_logs self |}.

(** The eleven signatures, in the order of the dict literal; each is the
    source's pattern after its [(?i)] flag. *)
Definition core_dangerous_patterns : list (regex * string) := [
  (alts ["ddos"; "denial.of.service"], "DDoS attack patterns");
  (alts ["ransomware"; "crypto.lock"], "Ransomware indicators");
  (alts ["botnet"; "zombie"], "Botnet operations");
  (alts_then ["delete"; "drop"; "truncate"] "database", "Database destruction");
  (alts_then ["format"; "wipe"; "erase"] "drive", "Data wiping operations");
  (alts_then ["steal"; "exfiltrate"; "extract"] "data", "Data theft operations");
  (alts ["backdoor"; "rootkit"; "trojan"], "Malware installation");
  (alts ["privilege.escalation"; "admin.access"], "Unauthorized access");
  (alts ["keylogger"; "screen.capture"], "Surveillance tools");
  (alts ["phishing"; "social.engineering"], "Social engineering");
  (alts ["impersonat"; "identity.theft"], "Identity crimes")
].

Definition _initialize_dangerous_patterns (self : AsimovSafetyEngine) : AsimovSafetyEngine :=
  {| rules := rules self;
     prohibited_actions := prohibited_actions self;
     dangerous_patterns := core_dangerous_patterns;
     emergency_stop_active := emergency_stop_active self;
     safety_logs := safety_logs self |}.

Definition initialize (self : AsimovSafetyEngine) : AsimovSafetyEngine :=
  _initialize_dangerous_patterns (_initialize_prohibited_actions (_load_core_rules self)).

(** ** Condition evaluation and the audit log *)

(** [{"action_type": action_type, **context}]: a key of [context] wins. *)
Definition eval_context (action_type : string) (context : gmap string value) : gmap string value :=
  context ∪ {[ "action_type" := VStr action_type ]}.

(** [eval] under [try]; every exception is logged as a warning ("Rule
    condition evaluation failed") and answered with [False]. *)
Definition _evaluate_rule_condition (rule : SafetyRule.t) (action_type : string)
    (context : gmap string value) : value :=
  match eval (eval_context action_type context) (SafetyRule.condition rule) with
  | Ok v => v
  | Raise _ => VBool false
  end.

Definition law_descriptions (l : AsimovLaw) : string :=
  match l with
  | FIRST => "First Law (Do No Harm)"
  | SECOND => "Second Law (Obey Operators)"
  | THIRD => "Third Law (Self-Preservation)"
  end.

Definition _generate_reason (violated_laws : list AsimovLaw) (violated_rules : list string)
    (safety_level : SafetyLevel) : string :=
  match violated_laws with
  | [] => "Action approved - no safety violations detected"
  | _ =>
      "Action violates " ++ String.concat ", " (map law_descriptions violated_laws)
      ++ ". Safety level: " ++ SafetyLevel_value safety_level
      ++ ". Rules: " ++ String.concat ", " violated_rules
  end.

(** [xs[-10000:]] once [len(xs) > 10000]. *)
Definition trim_logs (xs : list LogEntry.t) : list LogEntry.t :=
  let len := Z.of_nat (length xs) in
  if 10000 <? len then drop (Z.to_nat (len - 10000)) xs else xs.

(** Appends one entry stamped [now] and keeps the last 10000. *)
Definition _log_safety_check (now : Z) (action_type : string) (context : gmap string value)
    (result : SafetyCheck.t) (self : AsimovSafetyEngine) : AsimovSafetyEngine :=
  let log_entry :=
    LogEntry.mk now action_type context result (emergency_stop_active self) in
  {| rules := rules self;
     prohibited_actions := prohibited_actions self;
     dangerous_patterns := dangerous_patterns self;
     emergency_stop_active := emergency_stop_active self;
     safety_logs := trim_logs (safety_logs self ++ [log_entry]) |}.

(** ** [validate_action] *)

(** The five local variables the checks of [validate_action] update. *)
Module Tally.
Record t := mk {
  violated_laws : list AsimovLaw;
  violated_rules : list string;
  safety_level : SafetyLevel;
  requires_approval : bool;
  recommendations : list string
}.
End Tally.

(** A [for] loop whose body may raise. *)
Fixpoint for_each {A S} (body : S -> A -> result S) (xs : list A) (s : S) : result S :=
  match xs with
  | [] => Ok s
  | x :: xs' => do s' <- body s x; for_each body xs' s'
  end.

(** [re.search(pattern, v)]: anything but a string is a [TypeError]. *)
Definition re_search_value (pattern : regex) (v : value) : result bool :=
  match v with
  | VStr s => Ok (re_search pattern s)
  | _ => Raise TypeError
  end.

(** Lines 310-313. *)
Definition check_prohibited (self : AsimovSafetyEngine) (action_type : string)
    (t : Tally.t) : Tally.t :=
  if bool_decide (action_type ∈ prohibited_actions self) then
    Tally.mk (Tally.violated_laws t ++ [FIRST])
             (Tally.violated_rules t ++ ["prohibited_action"])
             PROHIBITED
             (Tally.requires_approval t) (Tally.recommendations t)
  else t.

(** The body of the loop over [dangerous_patterns] (lines 317-322). *)
Definition check_pattern (action_description : value) (t : Tally.t)
    (entry : regex * string) : result Tally.t :=
  let '(pattern, description) := entry in
  do found <- re_search_value pattern action_description;
  if found then
    do level <- py_max (Tally.safety_level t) DANGEROUS;
    Ok (Tally.mk (Tally.violated_laws t ++ [FIRST])
                 (Tally.violated_rules t ++ ["dangerous_pattern: " ++ description])
                 level
                 (Tally.requires_approval t) (Tally.recommendations t))
  else Ok t.

(** The body of the loop over [rules.values()] (lines 325-340). *)
Definition check_rule (action_type : string) (context : gmap string value)
    (t : Tally.t) (rule : SafetyRule.t) : result Tally.t :=
  if negb (SafetyRule.enabled rule) then Ok t
  else if truthy (_evaluate_rule_condition rule action_type context) then
    if String.eqb (SafetyRule.action rule) "block" then
      Ok (Tally.mk (Tally.violated_laws t ++ [SafetyRule.law rule])
                   (Tally.violated_rules t ++ [SafetyRule.id rule])
                   PROHIBITED
                   (Tally.requires_approval t) (Tally.recommendations t))
    else if String.eqb (SafetyRule.action rule) "require_approval" then
      do level <- py_max (Tally.safety_level t) CAUTION;
      Ok (Tally.mk (Tally.violated_laws t) (Tally.violated_rules t)
                   level true
                   (Tally.recommendations t
                    ++ ["Requires approval: " ++ SafetyRule.description rule]))
    else if String.eqb (SafetyRule.action rule) "require_justification" then
      Ok (Tally.mk (Tally.violated_laws t) (Tally.violated_rules t)
                   (Tally.safety_level t) true
                   (Tally.recommendations t
                    ++ ["Requires justification: " ++ SafetyRule.description rule]))
    else Ok t
  else Ok t.

(** Lines 303-341: the three checks in sequence. *)
Definition run_checks (self : AsimovSafetyEngine) (action_type : string)
    (context : gmap string value) : result Tally.t :=
  let t0 := check_prohibited self action_type (Tally.mk [] [] SAFE false []) in
  let action_description := default (VStr "") (context !! "description") in
  do t1 <- for_each (check_pattern action_description) (dangerous_patterns self) t0;
  for_each (check_rule action_type context) (map snd (rules self)) t1.

(** Lines 343-347:
    [len(violated_laws) == 0 and safety_level != PROHIBITED and
     (not requires_approval or context.get("operator_approved", False))]. *)
Definition approval (context : gmap string value) (t : Tally.t) : value :=
  if negb (Nat.eqb (length (Tally.violated_laws t)) 0) then VBool false
  else if bool_decide (Tally.safety_level t = PROHIBITED) then VBool false
  else if negb (Tally.requires_approval t) then VBool true
  else default (VBool false) (context !! "operator_approved").

(** Lines 350-358. *)
Definition verdict (context : gmap string value) (t : Tally.t) : SafetyCheck.t :=
  SafetyCheck.mk
    (approval context t)
    (list_set (Tally.violated_laws t))
    (Tally.violated_rules t)
    (Tally.safety_level t)
    (_generate_reason (Tally.violated_laws t) (Tally.violated_rules t) (Tally.safety_level t))
    (Tally.recommendations t)
    (Tally.requires_approval t)
    "operator".

(** The verdict of lines 294-301. *)
Definition emergency_stop_check : SafetyCheck.t :=
  SafetyCheck.mk (VBool false) [FIRST] ["emergency_stop"] PROHIBITED
    "Emergency stop is active - all operations suspended"
    ["Wait for emergency stop to be deactivated"]
    false "operator".

Definition validate_action (now : Z) (action_type : string) (context : gmap string value)
    (self : AsimovSafetyEngine) : result SafetyCheck.t * AsimovSafetyEngine :=
  if emergency_stop_active self then (Ok emergency_stop_check, self)
  else
    match run_checks self action_type context with
    | Raise e => (Raise e, self)
    | Ok t =>
        let result := verdict context t in
        (Ok result, _log_safety_check now action_type context result self)
    end.

(** ** Emergency stop *)

Definition set_emergency_stop (b : bool) (self : AsimovSafetyEngine) : AsimovSafetyEngine :=
  {| rules := rules self;
     prohibited_actions := prohibited_actions self;
     dangerous_patterns := dangerous_patterns self;
     emergency_stop_active := b;
     safety_logs := safety_logs self |}.

(** Sets the flag, then logs; [t_ctx] and [t_log] are the two clock readings
    it takes. *)
Definition emergency_stop (t_ctx t_log : Z) (self : AsimovSafetyEngine) : AsimovSafetyEngine :=
  _log_safety_check t_log "emergency_stop" {[ "timestamp" := VDatetime t_ctx ]}
    (SafetyCheck.mk (VBool false) [] ["emergency_stop"] PROHIBITED
       "Emergency stop activated by operator"
       ["All operations suspended for safety"]
       false "operator")
    (set_emergency_stop true self).

Definition deactivate_emergency_stop (operator_id : string) (self : AsimovSafetyEngine)
    : AsimovSafetyEngine :=
  set_emergency_stop false self.

(** ** [validate_mission] *)

(** What a [for] loop over [v] visits: the items of a list, the characters of
    a string, the keys of a dict; other values are not iterable. *)
Definition iterate (v : value) : result (list value) :=
  match v with
  | VList l => Ok l
  | VStr s => Ok (map (fun c => VStr (String c "")) (list_ascii_of_string s))
  | VDict d => Ok (map (fun kv => VStr (fst kv)) d)
  | _ => Raise TypeError
  end.

(** [{"objective": objective, "mission_id": mission_data.get("id"),
      "priority": mission_data.get("priority"), **mission_data}]. *)
Definition objective_context (mission_data : gmap string value) (objective : value)
    : gmap string value :=
  mission_data ∪
  <[ "objective" := objective ]>
    (<[ "mission_id" := default VNone (mission_data !! "id") ]>
       (<[ "priority" := default VNone (mission_data !! "priority") ]> ∅)).

(** The loop of lines 406-416; [clock i] is the clock reading during the
    check of the objective at index [i]. A check that raises ends the loop,
    and the entries logged so far remain. *)
Fixpoint check_objectives (clock : nat -> Z) (i : nat) (mission_data : gmap string value)
    (objectives : list value) (self : AsimovSafetyEngine)
    : result (list SafetyCheck.t) * AsimovSafetyEngine :=
  match objectives with
  | [] => (Ok [], self)
  | objective :: rest =>
      match validate_action (clock i) "mission_objective"
              (objective_context mission_data objective) self with
      | (Raise e, self') => (Raise e, self')
      | (Ok check, self') =>
          match check_objectives clock (S i) mission_data rest self' with
          | (Raise e, self'') => (Raise e, self'')
          | (Ok checks, self'') => (Ok (check :: checks), self'')
          end
      end
  end.

Definition has_level (l : SafetyLevel) (all_checks : list SafetyCheck.t) : bool :=
  existsb (fun check => bool_decide (SafetyCheck.safety_level check = l)) all_checks.

(** Lines 427-433. *)
Definition mission_level (all_checks : list SafetyCheck.t) : SafetyLevel :=
  if has_level PROHIBITED all_checks then PROHIBITED
  else if has_level DANGEROUS all_checks then DANGEROUS
  else if has_level CAUTION all_checks then CAUTION
  else SAFE.

(** Lines 419-443. *)
Definition mission_verdict (all_checks : list SafetyCheck.t) : SafetyCheck.t :=
  SafetyCheck.mk
    (VBool (forallb (fun check => truthy (SafetyCheck.approved check)) all_checks))
    (list_set (concat (map SafetyCheck.violated_laws all_checks)))
    (list_set (concat (map SafetyCheck.violated_rules all_checks)))
    (mission_level all_checks)
    ("Mission validation: " ++ pretty (length all_checks) ++ " objectives checked")
    []
    (existsb SafetyCheck.requires_approval all_checks)
    "operator".

Definition validate_mission (clock : nat -> Z) (mission_data : gmap string value)
    (self : AsimovSafetyEngine) : result SafetyCheck.t * AsimovSafetyEngine :=
  match iterate (default (VList []) (mission_data !! "objectives")) with
  | Raise e => (Raise e, self)
  | Ok objectives =>
      match check_objectives clock 0 mission_data objectives self with
      | (Raise e, self') => (Raise e, self')
      | (Ok all_checks, self') => (Ok (mission_verdict all_checks), self')
      end
  end.

(** [mission] is an object with the four attributes read here. *)
Definition validate_mission_execution (now : Z) (id status priority assigned_operator : value)
    (self : AsimovSafetyEngine) : result SafetyCheck.t * AsimovSafetyEngine :=
  validate_action now "mission_execution"
    (<[ "mission_id" := id ]>
       (<[ "status" := status ]>
          (<[ "priority" := priority ]>
             (<[ "operator_id" := assigned_operator ]> ∅))))
    self.

(** ** [get_status] *)

Module Status.
Record t := mk {
  active : bool;
  emergency_stop : bool;
  rules_count : nat;
  prohibited_actions : nat;
  recent_checks : nat
}.
End Status.

(** [delta.seconds] of a [timedelta] of [delta] microseconds: a [timedelta]
    is kept as days, seconds in [0, 86400) and microseconds in [0, 10^6),
    and [.seconds] is the middle part, not the whole span in seconds. *)
Definition timedelta_seconds (delta : Z) : Z :=
  (delta mod 86400000000) / 1000000.

(** The test of line 488 on one entry,
    [(datetime.utcnow() - datetime.fromisoformat(log["timestamp"])).seconds < 3600],
    for the clock reading [now] taken at that entry; readings are counted in
    microseconds. *)
Definition is_recent (now : Z) (log : LogEntry.t) : bool :=
  timedelta_seconds (now - LogEntry.timestamp log) <? 3600.

(** The list comprehension of lines 487-488: it reads the clock anew for
    every entry; [clock i] is the reading taken at the entry of index [i]. *)
Fixpoint count_recent (clock : nat -> Z) (i : nat) (logs : list LogEntry.t) : nat :=
  match logs with
  | [] => 0
  | log :: rest =>
      ((if is_recent (clock i) log then 1 else 0) + count_recent clock (S i) rest)%nat
  end.

Definition get_status (clock : nat -> Z) (self : AsimovSafetyEngine) : Status.t :=
  Status.mk true
    (emergency_stop_active self)
    (length (rules self))
    (size (prohibited_actions self))
    (count_recent clock 0 (safety_logs self)).

(** ** Sequences of calls *)

Inductive call :=
| ValidateAction (now : Z) (action_type : string) (context : gmap string value)
| ValidateMission (clock : nat -> Z) (mission_data : gmap string value)
| ValidateMissionExecution (now : Z) (id status priority assigned_operator : value)
| EmergencyStop (t_ctx t_log : Z)
| DeactivateEmergencyStop (operator_id : string).

(** The engine after one call, whether the call returned or raised. *)
Definition after (c : call) (self : AsimovSafetyEngine) : AsimovSafetyEngine :=
  match c with
  | ValidateAction now a ctx => snd (validate_action now a ctx self)
  | ValidateMission clock m => snd (validate_mission clock m self)
  | ValidateMissionExecution now i s p o => snd (validate_mission_execution now i s p o self)
  | EmergencyStop t1 t2 => emergency_stop t1 t2 self
  | DeactivateEmergencyStop o => deactivate_emergency_stop o self
  end.

Definition run (calls : list call) (self : AsimovSafetyEngine) : AsimovSafetyEngine :=
  fold_left (fun e c => after c e) calls self.

(** The engine as [initialize] leaves a fresh object. *)
Definition engine0 : AsimovSafetyEngine := initialize new_engine.

(** * Properties *)

(** The engine holds the catalogue, the prohibited set and the signatures
    that [initialize] installs; the flag and the log are free. *)
Definition initialized (self : AsimovSafetyEngine) : Prop :=
  map snd (rules self) = all_rules /\
  prohibited_actions self = core_prohibited_actions /\
  dangerous_patterns self = core_dangerous_patterns.

(** The log holds at most 10000 entries. *)
Definition bounded (self : AsimovSafetyEngine) : Prop :=
  Z.of_nat (length (safety_logs self)) <= 10000.

(** A request to [_log_safety_check]: clock reading, action type, context
    and verdict. *)
Definition log_request : Type := Z * string * gmap string value * SafetyCheck.t.

Definition log_one (self : AsimovSafetyEngine) (r : log_request) : AsimovSafetyEngine :=
  let '(now, a, ctx, res) := r in _log_safety_check now a ctx res self.

Definition log_all (reqs : list log_request) (self : AsimovSafetyEngine) : AsimovSafetyEngine :=
  fold_left log_one reqs self.

(** The entry a request leaves in the log. *)
Definition entry_of (stop : bool) (r : log_request) : LogEntry.t :=
  let '(now, a, ctx, res) := r in LogEntry.mk now a ctx res stop.

(** The order the specification puts on the levels:
    SAFE < CAUTION < DANGEROUS < PROHIBITED. The code has no such order. *)
Definition level_rank (l : SafetyLevel) : nat :=
  match l with
  | SAFE => 0
  | CAUTION => 1
  | DANGEROUS => 2
  | PROHIBITED => 3
  end.

Definition level_max (a b : SafetyLevel) : SafetyLevel :=
  if (level_rank a <? level_rank b)%nat then b else a.

Definition max_level (ls : list SafetyLevel) : SafetyLevel :=
  fold_right level_max SAFE ls.

(** The names a condition reads. *)
Fixpoint names (e : expr) : list string :=
  match e with
  | EName x => [x]
  | EConst _ => []
  | EIn e _ => names e
  | ECompare l _ r => names l ++ names r
  | EAnd l r => names l ++ names r
  end.

Definition atom (e : expr) : bool :=
  match e with
  | EName _ | EConst _ => true
  | _ => false
  end.

(** A conjunction of comparisons and membership tests between names and
    constants: the shape of all thirteen conditions. *)
Fixpoint conjunctive (e : expr) : bool :=
  match e with
  | EIn e _ => atom e
  | ECompare l _ r => atom l && atom r
  | EAnd l r => conjunctive l && conjunctive r
  | _ => false
  end.

(** The list displays that stand on the right of an [in]. *)
Fixpoint membership_lists (e : expr) : list (list value) :=
  match e with
  | EIn e items => items :: membership_lists e
  | ECompare l _ r => membership_lists l ++ membership_lists r
  | EAnd l r => membership_lists l ++ membership_lists r
  | _ => []
  end.

(** [a] is an item of the membership list of some core rule. *)
Definition in_membership_list (a : string) : bool :=
  existsb (existsb (fun i => py_eq i (VStr a)))
    (flat_map (fun rule => membership_lists (SafetyRule.condition rule)) all_rules).

(** The rule is enabled and its condition holds. *)
Definition fires (rule : SafetyRule.t) (action_type : string) (context : gmap string value)
    : bool :=
  SafetyRule.enabled rule && truthy (_evaluate_rule_condition rule action_type context).

(** Some signature is found in the description [d]. *)
Definition matches_pattern (self : AsimovSafetyEngine) (d : string) : bool :=
  existsb (fun entry => re_search (fst entry) d) (dangerous_patterns self).

(** Some rule whose action is [require_approval] fires. *)
Definition approval_rule_fires (self : AsimovSafetyEngine) (action_type : string)
    (context : gmap string value) : bool :=
  existsb (fun rule => fires rule action_type context
                       && String.eqb (SafetyRule.action rule) "require_approval")
          (map snd (rules self)).

(** The verdict of an action nothing objects to. *)
Definition safe_check : SafetyCheck.t :=
  SafetyCheck.mk (VBool true) [] [] SAFE
    "Action approved - no safety violations detected" [] false "operator".

(** A mission of three objectives against a hospital (rule fl_002 blocks it),
    and the verdict each of its objectives gets. *)
Definition hospital_mission : gmap string value :=
  <[ "id" := VInt 7 ]>
    (<[ "objectives" := VList [VStr "map the network"; VStr "list open ports";
                               VStr "write the report"] ]>
       {[ "target_type" := VStr "hospital" ]}).

Definition hospital_check : SafetyCheck.t :=
  SafetyCheck.mk (VBool false) [FIRST] ["fl_002"] PROHIBITED
    "Action violates First Law (Do No Harm). Safety level: prohibited. Rules: fl_002"
    [] false "operator".

(** The engine after [initialize] and one [emergency_stop]. *)
Definition stopped_engine : AsimovSafetyEngine := emergency_stop 0 1 engine0.

(** The verdict on [modify_logs], which rule tl_003 blocks. *)
Definition modify_logs_check : SafetyCheck.t :=
  SafetyCheck.mk (VBool false) [THIRD] ["tl_003"] PROHIBITED
    "Action violates Third Law (Self-Preservation). Safety level: prohibited. Rules: tl_003"
    [] false "operator".

(** A context in which both operands of rule sl_004 are present and cannot
    be compared. *)
Definition mixed_levels : gmap string value :=
  <[ "operator_permission_level" := VInt 1 ]>
    {[ "required_permission_level" := VStr "admin" ]}.

(** The call is one of the three validations. *)
Definition is_validation (c : call) : bool :=
  match c with
  | ValidateAction _ _ _ | ValidateMission _ _ | ValidateMissionExecution _ _ _ _ _ => true
  | EmergencyStop _ _ | DeactivateEmergencyStop _ => false
  end.

(** The verdict on a mission that has no objective. *)
Definition empty_mission_check : SafetyCheck.t :=
  SafetyCheck.mk (VBool true) [] [] SAFE
    "Mission validation: 0 objectives checked" [] false "operator".

(** The verdict [emergency_stop] writes to the log. *)
Definition emergency_stop_record : SafetyCheck.t :=
  SafetyCheck.mk (VBool false) [] ["emergency_stop"] PROHIBITED
    "Emergency stop activated by operator"
    ["All operations suspended for safety"]
    false "operator".

(** The two shapes a tally can have when the checks complete: nothing
    objected to, or something blocked. *)
Definition tally_shape (t : Tally.t) : Prop :=
  (Tally.safety_level t = SAFE /\ Tally.violated_laws t = [] /\ Tally.violated_rules t = [])
  \/
  (Tally.safety_level t = PROHIBITED /\ Tally.violated_laws t <> []
   /\ Tally.violated_rules t <> []).

(** A context that only says that private data is involved. *)
Definition private_data_context : gmap string value :=
  {[ "involves_private_data" := VBool true ]}.

(** The rule is enabled and its action is one of the three that
    [validate_action] acts on. *)
Definition effective (rule : SafetyRule.t) : bool :=
  SafetyRule.enabled rule &&
  (String.eqb (SafetyRule.action rule) "block"
   || String.eqb (SafetyRule.action rule) "require_approval"
   || String.eqb (SafetyRule.action rule) "require_justification").

(** The engine with its ineffective rules taken out of the catalogue. *)
Definition only_effective (self : AsimovSafetyEngine) : AsimovSafetyEngine :=
  {| rules := List.filter (fun entry => effective (snd entry)) (rules self);
     prohibited_actions := prohibited_actions self;
     dangerous_patterns := dangerous_patterns self;
     emergency_stop_active := emergency_stop_active self;
     safety_logs := safety_logs self |}.

(** For each core rule that reads an attribute of the context, one attribute
    without which it cannot hold. *)
Definition attribute_names : list string :=
  ["target_type"; "data_type"; "operation_type"; "involves_private_data";
   "operator_authenticated"; "emergency_override"; "command_violates_first_law";
   "operator_permission_level"; "action_threatens_system"; "resource_usage";
   "communication_insecure"].

(** The context [validate_mission_execution] builds. *)
Definition execution_context (id status priority assigned_operator : value)
    : gmap string value :=
  <[ "mission_id" := id ]>
    (<[ "status" := status ]>
       (<[ "priority" := priority ]>
          (<[ "operator_id" := assigned_operator ]> ∅))).

(** Two engines with the same rules, prohibited set, signatures and flag;
    their logs may differ. *)
Definition same_config (s1 s2 : AsimovSafetyEngine) : Prop :=
  rules s1 = rules s2 /\
  prohibited_actions s1 = prohibited_actions s2 /\
  dangerous_patterns s1 = dangerous_patterns s2 /\
  emergency_stop_active s1 = emergency_stop_active s2.

(** [attribute_names] without [involves_private_data]. *)
Definition other_attribute_names : list string :=
  ["target_type"; "data_type"; "operation_type";
   "operator_authenticated"; "emergency_override"; "command_violates_first_law";
   "operator_permission_level"; "action_threatens_system"; "resource_usage";
   "communication_insecure"].

(** The verdict on private data: approval is required, and [approved] is
    whatever the context gives as [operator_approved]. *)
Definition private_data_check (context : gmap string value) : SafetyCheck.t :=
  SafetyCheck.mk (default (VBool false) (context !! "operator_approved")) [] [] SAFE
    "Action approved - no safety violations detected"
    ["Requires justification: Protect individual privacy rights"]
    true "operator".

(** A mission whose second objective names a hospital and ransomware. *)
Definition two_objectives : list value :=
  [VStr "list open ports"; VStr "launch ransomware on the hospital"].

Definition mixed_mission : gmap string value :=
  {[ "objectives" := VList two_objectives ]}.

(** The text of [_generate_reason] when no law is violated. *)
Definition approved_reason : string :=
  "Action approved - no safety violations detected".

(** The string with each ASCII capital A-Z replaced by its small letter and
    every other character kept. This is not Python's [str.lower()], which
    also changes letters outside ASCII. *)
Fixpoint ascii_lower (s : string) : string :=
  match s with
  | EmptyString => EmptyString
  | String c s' => String (lower c) (ascii_lower s')
  end.

(** Every entry of the log that is marked [emergency_stop_active] is the
    record of a call to [emergency_stop]. *)
Definition marked_entries_are_stops (logs : list LogEntry.t) : Prop :=
  Forall (fun log =>
            LogEntry.emergency_stop_active log = true ->
            LogEntry.action_type log = "emergency_stop" /\
            LogEntry.result log = emergency_stop_record) logs.

(** What the loop of [_load_core_rules] does to the dict of rules. *)
Definition load_dict (rs : list SafetyRule.t) (d : list (string * SafetyRule.t))
    : list (string * SafetyRule.t) :=
  fold_left (fun d rule => dict_set (SafetyRule.id rule) rule d) rs d.

(** One day, in microseconds. *)
Definition day : Z := 86400000000.

(** The outcome of the check of one objective of a mission on the engine
    [self]; it depends neither on the clock nor on the log. *)
Definition objective_verdict (mission_data : gmap string value) (self : AsimovSafetyEngine)
    (objective : value) : result SafetyCheck.t :=
  fst (validate_action 0 "mission_objective" (objective_context mission_data objective) self).

(** A mission that exports personal data, and one described as a ransomware
    attack. *)
Definition personal_data_mission : gmap string value :=
  <[ "objectives" := VList [VStr "export the customer table"] ]>
    {[ "data_type" := VStr "pii" ]}.

Definition ransomware_mission : gmap string value :=
  <[ "objectives" := VList [VStr "encrypt the file server"] ]>
    {[ "description" := VStr "launching a ransomware attack" ]}.

(** ** The audit log *)

Lemma initialized_engine0 : initialized engine0.
Proof. repeat split. Qed.

Lemma trim_logs_drop xs :
  trim_logs xs = drop (length xs - Z.to_nat 10000)%nat xs.
Proof.
  unfold trim_logs. cbv zeta.
  destruct (Z.ltb_spec 10000 (Z.of_nat (length xs))) as [Hlt | Hle].
  - f_equal. lia.
  - replace (length xs - Z.to_nat 10000)%nat with 0%nat by lia. reflexivity.
Qed.

Lemma trim_logs_bounded xs : Z.of_nat (length (trim_logs xs)) <= 10000.
Proof.
  rewrite trim_logs_drop, length_drop. lia.
Qed.

Lemma trim_logs_small xs :
  Z.of_nat (length xs) <= 10000 -> trim_logs xs = xs.
Proof.
  intros H. rewrite trim_logs_drop.
  replace (length xs - Z.to_nat 10000)%nat with 0%nat by lia. reflexivity.
Qed.

(** Trimming early does not change what a later trim keeps. *)
Lemma trim_logs_app xs ys :
  trim_logs (trim_logs xs ++ ys) = trim_logs (xs ++ ys).
Proof.
  destruct (Z.le_gt_cases (Z.of_nat (length xs)) 10000) as [Hle | Hgt].
  - rewrite (trim_logs_small xs Hle). reflexivity.
  - rewrite !trim_logs_drop, !length_app, length_drop.
    set (k := (length xs - Z.to_nat 10000)%nat).
    replace (length xs - k + length ys - Z.to_nat 10000)%nat with (length ys) by lia.
    replace (length xs + length ys - Z.to_nat 10000)%nat with (k + length ys)%nat by lia.
    rewrite <- drop_drop. f_equal.
    rewrite drop_app_le by lia. reflexivity.
Qed.

Lemma log_all_logs reqs : forall self,
  bounded self ->
  safety_logs (log_all reqs self)
  = trim_logs (safety_logs self ++ map (entry_of (emergency_stop_active self)) reqs).
Proof.
  induction reqs as [| [[[now a] ctx] res] reqs IH]; intros self Hb.
  - cbn [log_all fold_left map]. rewrite app_nil_r, trim_logs_small; auto.
  - change (log_all (_ :: reqs) self)
      with (log_all reqs (_log_safety_check now a ctx res self)).
    rewrite IH by apply trim_logs_bounded.
    cbn [_log_safety_check safety_logs emergency_stop_active map entry_of].
    rewrite trim_logs_app, <- app_assoc. reflexivity.
Qed.

Lemma bounded_log now a ctx res self : bounded (_log_safety_check now a ctx res self).
Proof. apply trim_logs_bounded. Qed.

Lemma bounded_validate_action now a ctx self :
  bounded self -> bounded (snd (validate_action now a ctx self)).
Proof.
  intros Hb. unfold validate_action.
  destruct (emergency_stop_active self); [exact Hb |].
  destruct (run_checks self a ctx); [apply bounded_log | exact Hb].
Qed.

Lemma bounded_check_objectives clock m objectives : forall i self,
  bounded self -> bounded (snd (check_objectives clock i m objectives self)).
Proof.
  induction objectives as [| o rest IH]; intros i self Hb; [exact Hb |].
  cbn [check_objectives].
  pose proof (bounded_validate_action (clock i) "mission_objective"
                (objective_context m o) self Hb) as Hv.
  destruct (validate_action _ _ _ self) as [[check | e] self']; cbn [snd] in Hv.
  - specialize (IH (S i) self' Hv).
    destruct (check_objectives clock (S i) m rest self') as [[checks | e] self''];
      exact IH.
  - exact Hv.
Qed.

Lemma bounded_after c self : bounded self -> bounded (after c self).
Proof.
  intros Hb. destruct c; cbn [after].
  - apply bounded_validate_action, Hb.
  - unfold validate_mission.
    destruct (iterate _) as [objectives | e]; [| exact Hb].
    pose proof (bounded_check_objectives clock mission_data objectives 0%nat self Hb) as Hc.
    destruct (check_objectives _ _ _ _ _) as [[checks | e] self']; exact Hc.
  - apply bounded_validate_action, Hb.
  - apply bounded_log.
  - exact Hb.
Qed.

Lemma bounded_run calls : forall self, bounded self -> bounded (run calls self).
Proof.
  induction calls as [| c calls IH]; intros self Hb; [exact Hb |].
  apply IH, bounded_after, Hb.
Qed.

Lemma last_logged self r :
  last (safety_logs (log_one self r)) = Some (entry_of (emergency_stop_active self) r).
Proof.
  destruct r as [[[now a] ctx] res].
  cbn [log_one _log_safety_check safety_logs entry_of].
  rewrite trim_logs_drop, length_app, drop_app_le by (cbn [length]; lia).
  apply last_snoc.
Qed.

(** C7. The audit trail never holds more than 10000 entries at the end of
    any call made on an initialised engine; the entry appended last is always
    the last entry of the trail; and 10001 appends to an empty trail leave
    exactly the entries after the oldest one, in order, so the oldest is gone
    (when entries are pairwise distinct it is not in the trail at all). *)
Theorem audit_trail_bounded_fifo :
  (forall calls, bounded (run calls engine0)) /\
  (forall self r,
      last (safety_logs (log_one self r))
      = Some (entry_of (emergency_stop_active self) r)) /\
  (forall self reqs,
      safety_logs self = [] ->
      Z.of_nat (length reqs) = 10001 ->
      exists oldest kept,
        map (entry_of (emergency_stop_active self)) reqs = oldest :: kept /\
        safety_logs (log_all reqs self) = kept /\
        Z.of_nat (length kept) = 10000 /\
        (NoDup (oldest :: kept) -> oldest ∉ safety_logs (log_all reqs self))).
Proof.
  split; [| split].
  - intros calls. apply bounded_run. unfold bounded. cbn. lia.
  - apply last_logged.
  - intros self reqs Hempty Hlen.
    assert (Hb : bounded self) by (unfold bounded; rewrite Hempty; cbn; lia).
    pose proof (log_all_logs reqs self Hb) as Hlogs.
    rewrite Hempty, app_nil_l, trim_logs_drop, length_map in Hlogs.
    replace (length reqs - Z.to_nat 10000)%nat with 1%nat in Hlogs by lia.
    destruct reqs as [| r reqs]; [cbn in Hlen; lia |].
    exists (entry_of (emergency_stop_active self) r),
           (map (entry_of (emergency_stop_active self)) reqs).
    cbn [map drop] in Hlogs. rewrite drop_0 in Hlogs.
    split; [reflexivity |]. split; [exact Hlogs |]. split.
    + rewrite length_map. cbn [length] in Hlen. lia.
    + intros Hnd. rewrite Hlogs. apply NoDup_cons in Hnd. tauto.
Qed.

(** C7 (witness): 10001 appends to the empty log of [engine0]. *)
Lemma audit_trail_bounded_fifo_witness :
  exists oldest kept,
    map (entry_of (emergency_stop_active engine0))
        (replicate (Z.to_nat 10001) (0, "network_scan", ∅, emergency_stop_check))
    = oldest :: kept /\
    safety_logs
      (log_all (replicate (Z.to_nat 10001) (0, "network_scan", ∅, emergency_stop_check))
               engine0) = kept /\
    Z.of_nat (length kept) = 10000 /\
    (NoDup (oldest :: kept) ->
     oldest ∉ safety_logs
       (log_all (replicate (Z.to_nat 10001) (0, "network_scan", ∅, emergency_stop_check))
                engine0)).
Proof.
  apply (proj2 (proj2 audit_trail_bounded_fifo) engine0
           (replicate (Z.to_nat 10001) (0, "network_scan", ∅, emergency_stop_check))).
  - reflexivity.
  - rewrite length_replicate. lia.
Defined.

(** ** Mission verdicts *)

Lemma mission_level_max all_checks :
  mission_level all_checks = max_level (map SafetyCheck.safety_level all_checks).
Proof.
  induction all_checks as [| c cs IH]; [reflexivity |].
  cbn [map max_level fold_right]. fold (max_level (map SafetyCheck.safety_level cs)).
  rewrite <- IH. unfold mission_level, has_level. cbn [existsb].
  destruct (SafetyCheck.safety_level c);
    destruct (existsb _ cs); try reflexivity;
    destruct (existsb _ cs); try reflexivity;
    destruct (existsb _ cs); reflexivity.
Qed.

Lemma check_objectives_length clock m objectives : forall i self all_checks self',
  check_objectives clock i m objectives self = (Ok all_checks, self') ->
  length all_checks = length objectives.
Proof.
  induction objectives as [| o rest IH]; intros i self cs self' H; cbn [check_objectives] in H.
  - injection H as <- _. reflexivity.
  - destruct (validate_action _ _ _ self) as [[check | e] s1]; [| discriminate].
    destruct (check_objectives clock (S i) m rest s1) as [[checks | e] s2] eqn:E;
      [| discriminate].
    injection H as <- _. cbn [length]. f_equal. eapply IH, E.
Qed.

Lemma elem_of_list_set_concat {A B} `{EqDecision B} (f : A -> list B) (xs : list A) (y : B) :
  y ∈ list_set (concat (map f xs)) <-> exists x, x ∈ xs /\ y ∈ f x.
Proof.
  unfold list_set. rewrite elem_of_remove_dups, list_elem_of_In, in_concat.
  split.
  - intros (l & Hl & Hy). apply in_map_iff in Hl as (x & <- & Hx).
    exists x. rewrite !list_elem_of_In. auto.
  - intros (x & Hx & Hy). exists (f x).
    apply list_elem_of_In in Hx. apply list_elem_of_In in Hy.
    split; [apply in_map, Hx | exact Hy].
Qed.

(** The aggregation step of [validate_mission] (lines 419-443), once its loop
    has collected [all_checks]. *)
Lemma aggregate_of_collected_checks clock mission_data self objectives all_checks self' :
  iterate (default (VList []) (mission_data !! "objectives")) = Ok objectives ->
  check_objectives clock 0 mission_data objectives self = (Ok all_checks, self') ->
  exists v,
    validate_mission clock mission_data self = (Ok v, self') /\
    length all_checks = length objectives /\
    (SafetyCheck.approved v = VBool true \/ SafetyCheck.approved v = VBool false) /\
    (SafetyCheck.approved v = VBool true <->
     forall c, c ∈ all_checks -> truthy (SafetyCheck.approved c) = true) /\
    SafetyCheck.safety_level v = max_level (map SafetyCheck.safety_level all_checks) /\
    (objectives = [] -> SafetyCheck.safety_level v = SAFE) /\
    (forall l, l ∈ SafetyCheck.violated_laws v <->
               exists c, c ∈ all_checks /\ l ∈ SafetyCheck.violated_laws c) /\
    NoDup (SafetyCheck.violated_laws v) /\
    (forall r, r ∈ SafetyCheck.violated_rules v <->
               exists c, c ∈ all_checks /\ r ∈ SafetyCheck.violated_rules c) /\
    NoDup (SafetyCheck.violated_rules v) /\
    (SafetyCheck.requires_approval v = true <->
     exists c, c ∈ all_checks /\ SafetyCheck.requires_approval c = true) /\
    SafetyCheck.recommendations v = [].
Proof.
  intros Hobj Hchecks.
  pose proof (check_objectives_length _ _ _ _ _ _ _ Hchecks) as Hlen.
  exists (mission_verdict all_checks).
  unfold validate_mission. rewrite Hobj, Hchecks.
  unfold mission_verdict; cbn [SafetyCheck.approved SafetyCheck.safety_level
    SafetyCheck.violated_laws SafetyCheck.violated_rules
    SafetyCheck.requires_approval SafetyCheck.recommendations].
  repeat apply conj.
  - reflexivity.
  - exact Hlen.
  - destruct (forallb _ all_checks); auto.
  - intros H c Hc. injection H as H.
    rewrite forallb_forall in H. apply H, list_elem_of_In, Hc.
  - intros H. f_equal. apply forallb_forall. intros c Hc.
    apply H, list_elem_of_In, Hc.
  - apply mission_level_max.
  - intros ->. destruct all_checks; [reflexivity | discriminate].
  - intros l. apply elem_of_list_set_concat.
  - apply NoDup_remove_dups.
  - intros r. apply elem_of_list_set_concat.
  - apply NoDup_remove_dups.
  - intros H. apply existsb_exists in H as (c & Hc & H).
    exists c. rewrite list_elem_of_In. auto.
  - intros (c & Hc & H). apply existsb_exists. exists c.
    rewrite <- list_elem_of_In. auto.
  - reflexivity.
Qed.

(** ** Rule conditions *)

Lemma py_compare_bool op a b v : py_compare op a b = Ok v -> exists c, v = VBool c.
Proof.
  unfold py_compare. destruct op; [intros [= <-]; eauto | ..];
    destruct (py_order _ a b); cbn [bind]; intros [= <-]; eauto.
Qed.

(** A conjunctive condition yields a [bool] when it yields at all. *)
Lemma eval_conjunctive_bool locals e : forall v,
  conjunctive e = true -> eval locals e = Ok v -> exists c, v = VBool c.
Proof.
  induction e as [x | c | e IH items | l IHl op r IHr | l IHl r IHr];
    intros v Hc Hv; cbn [conjunctive] in Hc; try discriminate; cbn [eval] in Hv.
  - destruct (eval locals e); cbn [bind] in Hv; [| discriminate].
    injection Hv as <-. eauto.
  - destruct (eval locals l); cbn [bind] in Hv; [| discriminate].
    destruct (eval locals r); cbn [bind] in Hv; [| discriminate].
    eapply py_compare_bool, Hv.
  - apply andb_prop in Hc as [Hl Hr].
    destruct (eval locals l) as [a |] eqn:El; cbn [bind] in Hv; [| discriminate].
    destruct (truthy a); [apply IHr; assumption |].
    injection Hv as <-. apply IHl; auto.
Qed.

Lemma atom_names locals e x :
  atom e = true -> x ∈ names e -> locals !! x = None -> eval locals e = Raise NameError.
Proof.
  destruct e; try discriminate; cbn [names eval]; intros _ Hx Hnone.
  - apply list_elem_of_singleton in Hx as ->. rewrite Hnone. reflexivity.
  - inversion Hx.
Qed.

(** A conjunctive condition that reads a name the locals lack either raises
    or is [False]. *)
Lemma eval_missing locals x e :
  conjunctive e = true -> x ∈ names e -> locals !! x = None ->
  match eval locals e with
  | Ok v => v = VBool false
  | Raise _ => True
  end.
Proof.
  intros Hc Hx Hnone.
  induction e as [y | c | e IH items | l IHl op r IHr | l IHl r IHr];
    cbn [conjunctive] in Hc; try discriminate; cbn [names] in Hx; cbn [eval].
  - rewrite (atom_names locals e x Hc Hx Hnone). exact I.
  - apply andb_prop in Hc as [Hl Hr]. apply elem_of_app in Hx as [Hx | Hx].
    + rewrite (atom_names locals l x Hl Hx Hnone). exact I.
    + destruct (eval locals l); cbn [bind]; [| exact I].
      rewrite (atom_names locals r x Hr Hx Hnone). exact I.
  - apply andb_prop in Hc as [Hl Hr]. apply elem_of_app in Hx as [Hx | Hx].
    + specialize (IHl Hl Hx).
      destruct (eval locals l) as [a |]; cbn [bind]; [| exact I].
      subst a. reflexivity.
    + destruct (eval locals l) as [a |] eqn:El; cbn [bind]; [| exact I].
      destruct (truthy a) eqn:Ht; [apply IHr; assumption |].
      destruct (eval_conjunctive_bool locals l a Hl El) as [c ->].
      cbn in Ht. subst c. reflexivity.
Qed.

Lemma all_rules_conjunctive :
  Forall (fun rule => conjunctive (SafetyRule.condition rule) = true) all_rules.
Proof. repeat constructor. Qed.

Lemma evaluate_missing rule action_type context x :
  conjunctive (SafetyRule.condition rule) = true ->
  x ∈ names (SafetyRule.condition rule) ->
  x ≠ "action_type" ->
  context !! x = None ->
  _evaluate_rule_condition rule action_type context = VBool false.
Proof.
  intros Hc Hx Hne Hnone.
  assert (Hl : eval_context action_type context !! x = None).
  { unfold eval_context. apply lookup_union_None. split; [exact Hnone |].
    apply lookup_singleton_ne. congruence. }
  pose proof (eval_missing _ x _ Hc Hx Hl) as H.
  unfold _evaluate_rule_condition.
  destruct (eval _ _); [exact H | reflexivity].
Qed.

(** C8. For every rule of an initialised engine and every context that lacks
    an attribute the rule's condition reads, [_evaluate_rule_condition]
    answers [False]. (The evaluator is a total function into values: it has
    no way to raise.) *)
Theorem missing_attribute_is_false self rule action_type context x :
  initialized self ->
  rule ∈ map snd (rules self) ->
  x ∈ names (SafetyRule.condition rule) ->
  x ≠ "action_type" ->
  context !! x = None ->
  _evaluate_rule_condition rule action_type context = VBool false.
Proof.
  intros (Hrules & _ & _) Hrule. rewrite Hrules in Hrule.
  apply evaluate_missing.
  pose proof all_rules_conjunctive as Hall.
  rewrite Forall_forall in Hall. apply Hall, Hrule.
Qed.

(** C8 (witness): rule fl_003 in a context without [data_type]. *)
Lemma missing_attribute_is_false_witness :
  _evaluate_rule_condition fl_003 "data_export" {[ "operator_approved" := VBool true ]}
  = VBool false.
Proof.
  apply (missing_attribute_is_false engine0 fl_003 "data_export"
           {[ "operator_approved" := VBool true ]} "data_type").
  - exact initialized_engine0.
  - vm_compute. do 2 apply list_elem_of_further. apply list_elem_of_here.
  - vm_compute. apply list_elem_of_here.
  - discriminate.
  - vm_compute. reflexivity.
Defined.

(** ** The checks of [validate_action] *)

(** The pattern loop only completes when nothing was found: a find asks
    [max] to compare two levels. *)
Lemma check_patterns_ok v pats : forall t t',
  for_each (check_pattern v) pats t = Ok t' -> t' = t.
Proof.
  induction pats as [| [pattern description] pats IH]; intros t t' H;
    cbn [for_each] in H.
  - congruence.
  - unfold check_pattern at 1 in H.
    destruct (re_search_value pattern v) as [[|] |]; cbn [bind py_max SafetyLevel_gt] in H;
      try discriminate.
    apply IH, H.
Qed.

Lemma check_patterns_quiet d pats : forall t,
  existsb (fun entry => re_search (fst entry) d) pats = false ->
  for_each (check_pattern (VStr d)) pats t = Ok t.
Proof.
  induction pats as [| [pattern description] pats IH]; intros t H;
    cbn [for_each]; [reflexivity |].
  cbn [existsb fst] in H. apply orb_false_elim in H as [H1 H2].
  unfold check_pattern at 1. cbn [re_search_value bind]. rewrite H1.
  apply IH, H2.
Qed.

Lemma check_patterns_not_str v pats t :
  (forall d, v <> VStr d) -> pats <> [] ->
  for_each (check_pattern v) pats t = Raise TypeError.
Proof.
  intros Hv Hp. destruct pats as [| [pattern description] pats]; [congruence |].
  cbn [for_each]. unfold check_pattern at 1.
  destruct v; try reflexivity. destruct (Hv s eq_refl).
Qed.

(** What one rule can do to the tally when its check completes. *)
Lemma check_rule_ok a ctx t rule t' :
  check_rule a ctx t rule = Ok t' ->
  (exists extra, Tally.violated_laws t' = (Tally.violated_laws t ++ extra)%list) /\
  (Tally.safety_level t = PROHIBITED -> Tally.safety_level t' = PROHIBITED).
Proof.
  unfold check_rule.
  destruct (negb _); [intros [= <-]; split; [exists []; rewrite app_nil_r |]; auto |].
  destruct (truthy _); [| intros [= <-]; split; [exists []; rewrite app_nil_r |]; auto].
  destruct (String.eqb _ "block").
  { intros [= <-]. cbn. split; eauto. }
  destruct (String.eqb _ "require_approval").
  { cbn [py_max SafetyLevel_gt bind]. discriminate. }
  destruct (String.eqb _ "require_justification");
    intros [= <-]; cbn; split; auto; exists []; rewrite app_nil_r; reflexivity.
Qed.

Lemma check_rules_ok a ctx rs : forall t t',
  for_each (check_rule a ctx) rs t = Ok t' ->
  (exists extra, Tally.violated_laws t' = (Tally.violated_laws t ++ extra)%list) /\
  (Tally.safety_level t = PROHIBITED -> Tally.safety_level t' = PROHIBITED).
Proof.
  induction rs as [| rule rs IH]; intros t t' H; cbn [for_each] in H.
  - injection H as <-. split; [exists []; rewrite app_nil_r |]; auto.
  - destruct (check_rule a ctx t rule) as [t1 |] eqn:E; cbn [bind] in H; [| discriminate].
    apply check_rule_ok in E as [[e1 E1] L1].
    apply IH in H as [[e2 E2] L2].
    split; [| auto].
    exists (e1 ++ e2)%list. rewrite E2, E1, app_assoc. reflexivity.
Qed.

(** The rule loop completes when no rule asking for approval fires. *)
Lemma check_rules_return a ctx rs : forall t,
  existsb (fun rule => fires rule a ctx
                       && String.eqb (SafetyRule.action rule) "require_approval") rs = false ->
  exists t', for_each (check_rule a ctx) rs t = Ok t'.
Proof.
  induction rs as [| rule rs IH]; intros t H; cbn [for_each]; [eauto |].
  cbn [existsb] in H. apply orb_false_elim in H as [H1 H2].
  assert (E : exists t1, check_rule a ctx t rule = Ok t1).
  { unfold check_rule. unfold fires in H1.
    destruct (SafetyRule.enabled rule); cbn [negb andb] in *; [| eauto].
    destruct (truthy _); cbn [andb] in H1; [| eauto].
    destruct (String.eqb _ "block"); [eauto |].
    rewrite H1.
    destruct (String.eqb _ "require_justification"); eauto. }
  destruct E as [t1 ->]. cbn [bind]. apply IH, H2.
Qed.

(** The rule loop changes nothing when no rule fires. *)
Lemma check_rules_quiet a ctx rs : forall t,
  Forall (fun rule => fires rule a ctx = false) rs ->
  for_each (check_rule a ctx) rs t = Ok t.
Proof.
  induction rs as [| rule rs IH]; intros t H; cbn [for_each]; [reflexivity |].
  apply Forall_cons in H as [H1 H2].
  unfold check_rule at 1. unfold fires in H1.
  destruct (SafetyRule.enabled rule); cbn [negb andb] in *.
  - rewrite H1. cbn [bind]. apply IH, H2.
  - cbn [bind]. apply IH, H2.
Qed.

Lemma emergency_stop_short_circuit now a ctx self :
  emergency_stop_active self = true ->
  validate_action now a ctx self = (Ok emergency_stop_check, self).
Proof. unfold validate_action. intros ->. reflexivity. Qed.

Lemma run_checks_returns self a ctx d :
  default (VStr "") (ctx !! "description") = VStr d ->
  matches_pattern self d = false ->
  approval_rule_fires self a ctx = false ->
  exists t, run_checks self a ctx = Ok t.
Proof.
  intros Hd Hp Hr. unfold run_checks. cbv zeta. rewrite Hd.
  rewrite check_patterns_quiet by exact Hp. cbn [bind].
  apply check_rules_return, Hr.
Qed.

Lemma run_checks_prohibited self a ctx t :
  a ∈ prohibited_actions self ->
  run_checks self a ctx = Ok t ->
  (exists extra, Tally.violated_laws t = FIRST :: extra) /\
  Tally.safety_level t = PROHIBITED.
Proof.
  intros Ha. unfold run_checks, check_prohibited. cbv zeta.
  rewrite bool_decide_eq_true_2 by exact Ha.
  cbn [Tally.violated_laws Tally.violated_rules Tally.requires_approval
       Tally.recommendations app].
  destruct (for_each (check_pattern _) _ _) as [t1 |] eqn:E1; cbn [bind]; [| discriminate].
  apply check_patterns_ok in E1 as ->.
  intros H. apply check_rules_ok in H as [[extra E] L].
  cbn in E, L. split; [exists extra; exact E | auto].
Qed.

(** C1 (counterexample). A context whose description is a number: the
    pattern scan raises [TypeError], no verdict is returned and nothing is
    logged. *)
Lemma validate_action_raises_on_numeric_description :
  validate_action 0 "network_scan" {[ "description" := VInt 42 ]} engine0
  = (Raise TypeError, engine0).
Proof. vm_compute. reflexivity. Qed.

(** C1 (amended). On an initialised engine [validate_action] returns a
    verdict, and logs it unless the emergency stop is active, whenever the
    description is absent or a string in which no signature is found and no
    rule asking for approval fires; a fault inside a rule condition does not
    prevent this. When the description is present and not a string there is
    no fail-closed verdict: the [TypeError] reaches the caller and the engine
    is left as it was. *)
Theorem validate_action_returns_or_raises now action_type context self :
  initialized self ->
  (forall d,
      default (VStr "") (context !! "description") = VStr d ->
      matches_pattern self d = false ->
      approval_rule_fires self action_type context = false ->
      exists check self',
        validate_action now action_type context self = (Ok check, self') /\
        (emergency_stop_active self = false ->
         self' = _log_safety_check now action_type context check self)) /\
  ((forall d, default (VStr "") (context !! "description") <> VStr d) ->
   emergency_stop_active self = false ->
   validate_action now action_type context self = (Raise TypeError, self)).
Proof.
  intros (_ & _ & Hpats). split.
  - intros d Hd Hp Hr. unfold validate_action.
    destruct (emergency_stop_active self).
    + eexists _, _. split; [reflexivity | discriminate].
    + destruct (run_checks_returns self action_type context d Hd Hp Hr) as [t ->].
      eexists _, _. split; reflexivity.
  - intros Hd Hstop. unfold validate_action, run_checks. rewrite Hstop. cbv zeta.
    rewrite check_patterns_not_str; [reflexivity | exact Hd |].
    rewrite Hpats. discriminate.
Qed.

(** C1 (witness): a harmless description on [engine0]. *)
Lemma validate_action_returns_or_raises_witness :
  exists check self',
    validate_action 0 "network_scan" {[ "description" := VStr "routine port inventory" ]}
      engine0 = (Ok check, self') /\
    (emergency_stop_active engine0 = false ->
     self' = _log_safety_check 0 "network_scan"
               {[ "description" := VStr "routine port inventory" ]} check engine0).
Proof.
  apply (proj1 (validate_action_returns_or_raises 0 "network_scan"
                  {[ "description" := VStr "routine port inventory" ]} engine0
                  initialized_engine0) "routine port inventory").
  - vm_compute. reflexivity.
  - vm_compute. reflexivity.
  - vm_compute. reflexivity.
Defined.

(** C4 (counterexample). A prohibited action type with a numeric
    description: [validate_action] raises and returns no verdict. *)
Lemma prohibited_action_raises_on_numeric_description :
  bool_decide ("doxxing" ∈ prohibited_actions engine0) = true /\
  emergency_stop_active engine0 = false /\
  validate_action 0 "doxxing" {[ "description" := VInt 42 ]} engine0
  = (Raise TypeError, engine0).
Proof. vm_compute. auto. Qed.

(** C4 (amended). With the emergency stop inactive and a prohibited action
    type, every verdict [validate_action] returns has [approved = False],
    level PROHIBITED and FIRST among its violated laws; and it does return
    one whenever the description is absent or a string in which no signature
    is found and no rule asking for approval fires. *)
Theorem prohibited_action_verdict now action_type context self :
  initialized self ->
  emergency_stop_active self = false ->
  action_type ∈ core_prohibited_actions ->
  (forall check self',
      validate_action now action_type context self = (Ok check, self') ->
      SafetyCheck.approved check = VBool false /\
      SafetyCheck.safety_level check = PROHIBITED /\
      FIRST ∈ SafetyCheck.violated_laws check) /\
  (forall d,
      default (VStr "") (context !! "description") = VStr d ->
      matches_pattern self d = false ->
      approval_rule_fires self action_type context = false ->
      exists check self',
        validate_action now action_type context self = (Ok check, self')).
Proof.
  intros (_ & Hproh & _) Hstop Ha. rewrite <- Hproh in Ha. split.
  - intros check self'. unfold validate_action. rewrite Hstop.
    destruct (run_checks self action_type context) as [t |] eqn:E; [| discriminate].
    intros [= <- _].
    apply run_checks_prohibited in E as [[extra E] L]; [| exact Ha].
    unfold verdict, approval.
    cbn [SafetyCheck.approved SafetyCheck.safety_level SafetyCheck.violated_laws].
    rewrite E, L. cbn [length Nat.eqb negb].
    repeat split.
    unfold list_set. apply elem_of_remove_dups, list_elem_of_here.
  - intros d Hd Hp Hr. unfold validate_action. rewrite Hstop.
    destruct (run_checks_returns self action_type context d Hd Hp Hr) as [t ->].
    eexists _, _. reflexivity.
Qed.

(** C4 (witness): [doxxing] in a context without description. *)
Lemma prohibited_action_verdict_witness :
  exists check self',
    validate_action 0 "doxxing" {[ "target" := VStr "alice" ]} engine0 = (Ok check, self') /\
    SafetyCheck.approved check = VBool false /\
    SafetyCheck.safety_level check = PROHIBITED /\
    FIRST ∈ SafetyCheck.violated_laws check.
Proof.
  assert (Hstop : emergency_stop_active engine0 = false) by reflexivity.
  assert (Ha : "doxxing" ∈ core_prohibited_actions)
    by (apply (bool_decide_eq_true_1 _); vm_compute; reflexivity).
  destruct (prohibited_action_verdict 0 "doxxing" {[ "target" := VStr "alice" ]} engine0
              initialized_engine0 Hstop Ha) as [Hsafe Hret].
  destruct (Hret "") as (check & self' & Hv).
  - vm_compute. reflexivity.
  - vm_compute. reflexivity.
  - vm_compute. reflexivity.
  - exists check, self'. split; [exact Hv | exact (Hsafe check self' Hv)].
Defined.

(** ** Unknown action types *)

Lemma eval_context_action_type a ctx :
  ctx !! "action_type" = None ->
  eval_context a ctx !! "action_type" = Some (VStr a).
Proof.
  intros H. unfold eval_context.
  rewrite lookup_union_r by exact H. apply lookup_singleton_eq.
Qed.

Lemma in_membership_list_false a rule e items :
  in_membership_list a = false ->
  rule ∈ all_rules ->
  SafetyRule.condition rule = EIn e items ->
  existsb (fun i => py_eq i (VStr a)) items = false.
Proof.
  intros H Hrule Hcond. apply not_true_is_false. intros Ht.
  apply not_true_iff_false in H. apply H.
  unfold in_membership_list. apply existsb_exists. exists items.
  split; [| exact Ht].
  apply in_flat_map. exists rule. split; [apply list_elem_of_In, Hrule |].
  rewrite Hcond. cbn [membership_lists]. left. reflexivity.
Qed.

Ltac missing x :=
  unfold fires; rewrite (evaluate_missing _ _ _ x);
  [ reflexivity | reflexivity | vm_compute; repeat constructor
  | discriminate | apply lookup_empty ].

Lemma no_rule_fires a :
  in_membership_list a = false ->
  a <> "modify_logs" ->
  Forall (fun rule => fires rule a ∅ = false) all_rules.
Proof.
  intros Hlist Hne.
  repeat apply Forall_cons_2; [ | | | | | | | | | | | | | apply Forall_nil_2 ].
  - unfold fires, _evaluate_rule_condition, fl_001, name_in.
    cbn [SafetyRule.enabled SafetyRule.condition eval andb].
    rewrite eval_context_action_type by apply lookup_empty. cbn [bind truthy].
    apply (in_membership_list_false a fl_001 (EName "action_type")); [exact Hlist | | reflexivity].
    apply list_elem_of_here.
  - missing "target_type".
  - missing "data_type".
  - missing "operation_type".
  - missing "involves_private_data".
  - missing "operator_authenticated".
  - missing "emergency_override".
  - missing "command_violates_first_law".
  - missing "operator_permission_level".
  - missing "action_threatens_system".
  - missing "resource_usage".
  - unfold fires, _evaluate_rule_condition, tl_003.
    cbn [SafetyRule.enabled SafetyRule.condition eval andb].
    rewrite eval_context_action_type by apply lookup_empty.
    cbn [bind py_compare py_eq truthy].
    apply String.eqb_neq, Hne.
  - missing "communication_insecure".
Qed.

(** C10 (counterexample). [modify_logs] is not prohibited and is in no
    membership list of a core rule, yet with an empty context it is refused
    at level PROHIBITED: rule tl_003 tests [action_type == 'modify_logs']. *)
Lemma modify_logs_is_blocked :
  bool_decide ("modify_logs" ∈ prohibited_actions engine0) = false /\
  in_membership_list "modify_logs" = false /\
  emergency_stop_active engine0 = false /\
  fst (validate_action 0 "modify_logs" ∅ engine0) = Ok modify_logs_check.
Proof. vm_compute. auto. Qed.

(** C10 (amended). With the emergency stop inactive, every action type that
    is not prohibited, is in no membership list of a core rule and is not
    [modify_logs] gets, with an empty context, the verdict [safe_check]:
    approved, SAFE, no violated laws or rules, no approval required; and the
    verdict is logged. *)
Theorem unknown_action_allowed now action_type self :
  initialized self ->
  emergency_stop_active self = false ->
  action_type ∉ core_prohibited_actions ->
  in_membership_list action_type = false ->
  action_type <> "modify_logs" ->
  validate_action now action_type ∅ self
  = (Ok safe_check, _log_safety_check now action_type ∅ safe_check self).
Proof.
  intros (Hrules & Hproh & Hpats) Hstop Ha Hlist Hne.
  unfold validate_action, run_checks, check_prohibited. rewrite Hstop. cbv zeta.
  rewrite Hproh, bool_decide_eq_false_2 by exact Ha.
  rewrite lookup_empty. cbn [default].
  rewrite check_patterns_quiet by (rewrite Hpats; vm_compute; reflexivity).
  cbn [bind]. rewrite Hrules.
  rewrite check_rules_quiet by (apply no_rule_fires; assumption).
  reflexivity.
Qed.

(** C10 (witness): [port_scan] with an empty context. *)
Lemma unknown_action_allowed_witness :
  validate_action 5 "port_scan" ∅ engine0
  = (Ok safe_check, _log_safety_check 5 "port_scan" ∅ safe_check engine0).
Proof.
  apply (unknown_action_allowed 5 "port_scan" engine0 initialized_engine0).
  - reflexivity.
  - apply (bool_decide_eq_false_1 _). vm_compute. reflexivity.
  - vm_compute. reflexivity.
  - discriminate.
Defined.

(** ** Registration and failing conditions *)

Lemma dict_get_set {A} k (v : A) d : dict_get k (dict_set k v d) = Some v.
Proof.
  induction d as [| [k' v'] d IH]; cbn [dict_set dict_get].
  - rewrite String.eqb_refl. reflexivity.
  - destruct (String.eqb k k') eqn:E; cbn [dict_get]; rewrite ?String.eqb_refl, ?E; auto.
Qed.

(** C9 (counterexample). Rule sl_004 is registered by [initialize], and in a
    context that gives a number and a string for its two operands the
    evaluation of its condition fails with [TypeError]. *)
Lemma registered_condition_fails :
  dict_get "sl_004" (rules engine0) = Some sl_004 /\
  eval (eval_context "grant_access" mixed_levels) (SafetyRule.condition sl_004)
  = Raise TypeError.
Proof. vm_compute. auto. Qed.

(** C9 (amended). Registration stores any rule under its id without looking
    at its condition; a condition can fail when it is evaluated, and every
    such failure is caught by [_evaluate_rule_condition], which then answers
    [False], so that the rule leaves the tally of the check untouched; a rule
    counts as met exactly when the evaluation of its condition completes with
    a true value. *)
Theorem conditions_unvalidated_failures_absorbed rule self action_type context :
  dict_get (SafetyRule.id rule) (rules (register_rule rule self)) = Some rule /\
  (forall e t,
      eval (eval_context action_type context) (SafetyRule.condition rule) = Raise e ->
      _evaluate_rule_condition rule action_type context = VBool false /\
      check_rule action_type context t rule = Ok t) /\
  (truthy (_evaluate_rule_condition rule action_type context) = true <->
   exists v, eval (eval_context action_type context) (SafetyRule.condition rule) = Ok v
             /\ truthy v = true).
Proof.
  split; [apply dict_get_set |]. split.
  - intros e t H. unfold check_rule, _evaluate_rule_condition. rewrite H.
    split; [reflexivity |]. destruct (negb _); reflexivity.
  - unfold _evaluate_rule_condition.
    destruct (eval _ _) as [v | e].
    + split; [eauto | intros (w & [= <-] & Hw); exact Hw].
    + split; [discriminate | intros (w & [=] & _)].
Qed.

(** ** The code at the inputs where it departs from the specification *)

(** C2 (code at the failing input). The ransomware signature is found in the
    description, [max(safety_level, SafetyLevel.DANGEROUS)] raises
    [TypeError], and the call returns no verdict and logs nothing. *)
Lemma dangerous_pattern_raises :
  matches_pattern engine0 "launching a ransomware attack" = true /\
  validate_action 0 "network_scan"
    {[ "description" := VStr "launching a ransomware attack" ]} engine0
  = (Raise TypeError, engine0).
Proof. vm_compute. auto. Qed.

(** C3 (code at the failing input). While the emergency stop is active the
    check returns the emergency verdict and leaves the engine, and so the
    audit log, exactly as it was: the log still holds the single entry of
    [emergency_stop]. After [deactivate_emergency_stop] the same input gets
    its normal verdict. *)
Lemma emergency_stop_check_not_logged :
  validate_action 2 "network_scan" ∅ stopped_engine
  = (Ok emergency_stop_check, stopped_engine) /\
  length (safety_logs stopped_engine) = 1%nat /\
  fst (validate_action 3 "network_scan" ∅
         (deactivate_emergency_stop "operator-1" stopped_engine))
  = Ok safe_check.
Proof. vm_compute. auto. Qed.

(** C6 (code at the failing input). Rule fl_003 fires on
    [data_type = "pii"]; [max(safety_level, SafetyLevel.CAUTION)] raises
    [TypeError], with or without [operator_approved], and no verdict is
    returned. *)
Lemma approval_rule_raises :
  fires fl_003 "data_export" {[ "data_type" := VStr "pii" ]} = true /\
  validate_action 0 "data_export" {[ "data_type" := VStr "pii" ]} engine0
  = (Raise TypeError, engine0) /\
  validate_action 0 "data_export"
    (<[ "operator_approved" := VBool true ]> {[ "data_type" := VStr "pii" ]}) engine0
  = (Raise TypeError, engine0).
Proof. vm_compute. auto. Qed.

(** * Further properties of the engine *)

(** ** The emergency stop over sequences of calls *)

Lemma check_objectives_stopped clock m objectives : forall i self,
  emergency_stop_active self = true ->
  check_objectives clock i m objectives self
  = (Ok (map (fun _ => emergency_stop_check) objectives), self).
Proof.
  induction objectives as [| o rest IH]; intros i self Hstop; [reflexivity |].
  cbn [check_objectives map].
  rewrite emergency_stop_short_circuit by exact Hstop.
  rewrite IH by exact Hstop. reflexivity.
Qed.

Lemma validation_stopped c self :
  is_validation c = true ->
  emergency_stop_active self = true ->
  after c self = self.
Proof.
  intros Hc Hstop. destruct c; try discriminate; cbn [after].
  - rewrite emergency_stop_short_circuit by exact Hstop. reflexivity.
  - unfold validate_mission. destruct (iterate _); [| reflexivity].
    rewrite check_objectives_stopped by exact Hstop. reflexivity.
  - unfold validate_mission_execution.
    rewrite emergency_stop_short_circuit by exact Hstop. reflexivity.
Qed.

Lemma validations_stopped calls : forall self,
  forallb is_validation calls = true ->
  emergency_stop_active self = true ->
  run calls self = self.
Proof.
  induction calls as [| c calls IH]; intros self Hc Hstop; [reflexivity |].
  cbn [forallb] in Hc. apply andb_prop in Hc as [Hc1 Hc2].
  unfold run. cbn [fold_left]. rewrite validation_stopped by assumption.
  apply IH; assumption.
Qed.

(** X1. Once [emergency_stop] has been called, validations neither change
    the engine nor write to the log, however many follow, and every
    [validate_action] that comes after them is refused with the emergency
    verdict. *)
Theorem emergency_stop_persists t_ctx t_log self calls now action_type context :
  forallb is_validation calls = true ->
  run calls (emergency_stop t_ctx t_log self) = emergency_stop t_ctx t_log self /\
  validate_action now action_type context (run calls (emergency_stop t_ctx t_log self))
  = (Ok emergency_stop_check, emergency_stop t_ctx t_log self).
Proof.
  intros Hc.
  assert (Hrun : run calls (emergency_stop t_ctx t_log self) = emergency_stop t_ctx t_log self)
    by (apply validations_stopped; [exact Hc | reflexivity]).
  split; [exact Hrun |]. rewrite Hrun.
  apply emergency_stop_short_circuit. reflexivity.
Qed.

(** X1 (witness): a check and a mission validation after the stop. *)
Lemma emergency_stop_persists_witness :
  run [ValidateAction 2 "network_scan" ∅; ValidateMission (fun _ => 3) hospital_mission]
      (emergency_stop 0 1 engine0) = emergency_stop 0 1 engine0 /\
  validate_action 4 "port_scan" ∅
    (run [ValidateAction 2 "network_scan" ∅; ValidateMission (fun _ => 3) hospital_mission]
         (emergency_stop 0 1 engine0))
  = (Ok emergency_stop_check, emergency_stop 0 1 engine0).
Proof.
  apply (emergency_stop_persists 0 1 engine0
           [ValidateAction 2 "network_scan" ∅; ValidateMission (fun _ => 3) hospital_mission]).
  reflexivity.
Defined.

(** ** Missions at the edges *)

Lemma remove_dups_copies {A} `{EqDecision A} {B} (x : A) (l : list B) :
  l <> [] -> remove_dups (concat (map (fun _ => [x]) l)) = [x].
Proof.
  induction l as [| b l IH]; [congruence |]. intros _.
  cbn [map concat app remove_dups].
  destruct l as [| b' l].
  - cbn. destruct (decide_rel _ x []) as [Hin | _]; [inversion Hin | reflexivity].
  - destruct (decide_rel _ x _) as [_ | Hnot].
    + apply IH. discriminate.
    + destruct Hnot. cbn. apply list_elem_of_here.
Qed.

(** X2. A mission without objectives (the key is absent, or its list is
    empty) is approved at level SAFE, with nothing logged and the engine
    unchanged, whatever the engine holds: also while the emergency stop is
    active. *)
Theorem empty_mission_approved clock mission_data self :
  mission_data !! "objectives" = None \/ mission_data !! "objectives" = Some (VList []) ->
  validate_mission clock mission_data self = (Ok empty_mission_check, self).
Proof.
  intros [H | H]; unfold validate_mission; rewrite H; reflexivity.
Qed.

(** X2 (witness): a mission with an id only, on a stopped engine. *)
Lemma empty_mission_approved_witness :
  validate_mission (fun _ => 5) {[ "id" := VInt 7 ]} stopped_engine
  = (Ok empty_mission_check, stopped_engine).
Proof.
  apply empty_mission_approved. left. vm_compute. reflexivity.
Defined.

(** X3. While the emergency stop is active, a mission with at least one
    objective is refused: not approved, PROHIBITED, FIRST as the violated
    law and [emergency_stop] as the violated rule; nothing is logged. *)
Theorem stopped_mission_refused clock mission_data self objectives :
  emergency_stop_active self = true ->
  iterate (default (VList []) (mission_data !! "objectives")) = Ok objectives ->
  objectives <> [] ->
  exists v,
    validate_mission clock mission_data self = (Ok v, self) /\
    SafetyCheck.approved v = VBool false /\
    SafetyCheck.safety_level v = PROHIBITED /\
    SafetyCheck.violated_laws v = [FIRST] /\
    SafetyCheck.violated_rules v = ["emergency_stop"] /\
    SafetyCheck.requires_approval v = false.
Proof.
  intros Hstop Hobj Hne. unfold validate_mission. rewrite Hobj.
  rewrite check_objectives_stopped by exact Hstop.
  eexists. split; [reflexivity |].
  unfold mission_verdict, list_set.
  cbn [SafetyCheck.approved SafetyCheck.safety_level SafetyCheck.violated_laws
       SafetyCheck.violated_rules SafetyCheck.requires_approval].
  rewrite !map_map. cbn [emergency_stop_check SafetyCheck.violated_laws
    SafetyCheck.violated_rules SafetyCheck.approved SafetyCheck.requires_approval].
  rewrite !remove_dups_copies by exact Hne.
  destruct objectives as [| o rest]; [congruence |].
  repeat split.
  cbn. clear. induction rest; auto.
Qed.

(** X3 (witness): the hospital mission on a stopped engine. *)
Lemma stopped_mission_refused_witness :
  exists v,
    validate_mission (fun _ => 5) hospital_mission stopped_engine = (Ok v, stopped_engine) /\
    SafetyCheck.approved v = VBool false /\
    SafetyCheck.safety_level v = PROHIBITED /\
    SafetyCheck.violated_laws v = [FIRST] /\
    SafetyCheck.violated_rules v = ["emergency_stop"] /\
    SafetyCheck.requires_approval v = false.
Proof.
  apply (stopped_mission_refused (fun _ => 5) hospital_mission stopped_engine
           [VStr "map the network"; VStr "list open ports"; VStr "write the report"]).
  - reflexivity.
  - vm_compute. reflexivity.
  - discriminate.
Defined.

(** ** What a returned verdict can look like *)

Lemma snoc_not_nil {A} (l : list A) (x : A) : (l ++ [x])%list <> [].
Proof. destruct l; discriminate. Qed.

Lemma check_rule_shape a ctx t rule t' :
  check_rule a ctx t rule = Ok t' -> tally_shape t -> tally_shape t'.
Proof.
  unfold check_rule.
  destruct (negb _); [intros [= <-]; auto |].
  destruct (truthy _); [| intros [= <-]; auto].
  destruct (String.eqb _ "block").
  { intros [= <-] _. right. cbn. auto using snoc_not_nil. }
  destruct (String.eqb _ "require_approval").
  { cbn [py_max SafetyLevel_gt bind]. discriminate. }
  destruct (String.eqb _ "require_justification"); intros [= <-] H; exact H.
Qed.

Lemma check_rules_shape a ctx rs : forall t t',
  for_each (check_rule a ctx) rs t = Ok t' -> tally_shape t -> tally_shape t'.
Proof.
  induction rs as [| rule rs IH]; intros t t' H Ht; cbn [for_each] in H.
  - injection H as <-. exact Ht.
  - destruct (check_rule a ctx t rule) as [t1 |] eqn:E; cbn [bind] in H; [| discriminate].
    eapply IH; [exact H |]. eapply check_rule_shape; eassumption.
Qed.

Lemma run_checks_shape self a ctx t :
  run_checks self a ctx = Ok t -> tally_shape t.
Proof.
  unfold run_checks. cbv zeta.
  destruct (for_each (check_pattern _) _ _) as [t1 |] eqn:E1; cbn [bind]; [| discriminate].
  apply check_patterns_ok in E1 as ->.
  intros H. eapply check_rules_shape; [exact H |].
  unfold check_prohibited. destruct (bool_decide _); [right | left]; cbn; auto.
Qed.

Lemma list_set_nil {A} `{EqDecision A} (l : list A) : list_set l = [] <-> l = [].
Proof.
  split; [| intros ->; reflexivity].
  destruct l as [| x l]; [reflexivity |]. intros H.
  assert (Hx : x ∈ list_set (x :: l))
    by (apply elem_of_remove_dups, list_elem_of_here).
  rewrite H in Hx. inversion Hx.
Qed.

(** X4. Every verdict [validate_action] returns, on any engine, is of one of
    two kinds: level SAFE with no violated law and no violated rule, or level
    PROHIBITED with at least one of each and [approved = False]. It never
    returns CAUTION or DANGEROUS. *)
Theorem returned_verdict_shape now action_type context self check self' :
  validate_action now action_type context self = (Ok check, self') ->
  (SafetyCheck.safety_level check = SAFE /\
   SafetyCheck.violated_laws check = [] /\
   SafetyCheck.violated_rules check = [])
  \/
  (SafetyCheck.safety_level check = PROHIBITED /\
   SafetyCheck.violated_laws check <> [] /\
   SafetyCheck.violated_rules check <> [] /\
   SafetyCheck.approved check = VBool false).
Proof.
  unfold validate_action. destruct (emergency_stop_active self).
  - intros [= <- _]. right. cbn. repeat split; discriminate.
  - destruct (run_checks self action_type context) as [t |] eqn:E; [| discriminate].
    intros [= <- _]. apply run_checks_shape in E as [(L & V & R) | (L & V & R)].
    + left. unfold verdict. cbn. rewrite V. auto.
    + right. unfold verdict, approval. cbn. rewrite L.
      repeat split; auto.
      * rewrite list_set_nil. exact V.
      * destruct (Tally.violated_laws t); [congruence | reflexivity].
Qed.

(** X4 (witness): [modify_logs] is of the second kind. *)
Lemma returned_verdict_shape_witness :
  (SafetyCheck.safety_level modify_logs_check = SAFE /\
   SafetyCheck.violated_laws modify_logs_check = [] /\
   SafetyCheck.violated_rules modify_logs_check = [])
  \/
  (SafetyCheck.safety_level modify_logs_check = PROHIBITED /\
   SafetyCheck.violated_laws modify_logs_check <> [] /\
   SafetyCheck.violated_rules modify_logs_check <> [] /\
   SafetyCheck.approved modify_logs_check = VBool false).
Proof.
  apply (returned_verdict_shape 0 "modify_logs" ∅ engine0 modify_logs_check
           (snd (validate_action 0 "modify_logs" ∅ engine0))).
  vm_compute. reflexivity.
Defined.

(** X5. A verdict that [validate_action] returns and that a caller reads as
    approved (its [approved] is true in the Python sense) has no violated
    law, no violated rule, level SAFE, and either requires no approval or
    [approved] is the caller's own [operator_approved] value. *)
Theorem approval_sound now action_type context self check self' :
  validate_action now action_type context self = (Ok check, self') ->
  truthy (SafetyCheck.approved check) = true ->
  SafetyCheck.violated_laws check = [] /\
  SafetyCheck.violated_rules check = [] /\
  SafetyCheck.safety_level check = SAFE /\
  (SafetyCheck.requires_approval check = false \/
   context !! "operator_approved" = Some (SafetyCheck.approved check)).
Proof.
  intros Hv Happ.
  destruct (returned_verdict_shape _ _ _ _ _ _ Hv) as [(L & V & R) | (_ & _ & _ & A)];
    [| rewrite A in Happ; discriminate].
  repeat split; auto.
  unfold validate_action in Hv. destruct (emergency_stop_active self).
  - injection Hv as <- _. discriminate.
  - destruct (run_checks self action_type context) as [t |]; [| discriminate].
    injection Hv as <- _. unfold verdict, approval in *. cbn in *.
    destruct (Tally.requires_approval t); [right | left; reflexivity].
    destruct (negb _); [discriminate |].
    destruct (bool_decide _); [discriminate |]. cbn [negb] in *.
    destruct (context !! "operator_approved"); [reflexivity | discriminate].
Qed.

(** X5 (witness): private data with an operator's approval. *)
Lemma approval_sound_witness :
  exists check,
    fst (validate_action 0 "export_report"
           (<[ "operator_approved" := VBool true ]> private_data_context) engine0)
    = Ok check /\
    SafetyCheck.violated_laws check = [] /\
    SafetyCheck.violated_rules check = [] /\
    SafetyCheck.safety_level check = SAFE /\
    (SafetyCheck.requires_approval check = false \/
     (<[ "operator_approved" := VBool true ]> private_data_context) !! "operator_approved"
     = Some (SafetyCheck.approved check)).
Proof.
  exists (private_data_check (<[ "operator_approved" := VBool true ]> private_data_context)).
  split; [vm_compute; reflexivity |].
  apply (approval_sound 0 "export_report"
           (<[ "operator_approved" := VBool true ]> private_data_context) engine0
           (private_data_check (<[ "operator_approved" := VBool true ]> private_data_context))
           (snd (validate_action 0 "export_report"
                   (<[ "operator_approved" := VBool true ]> private_data_context) engine0))).
  - vm_compute. reflexivity.
  - reflexivity.
Defined.

(** ** What a rule can see and do *)

Lemma eval_ext l1 l2 e :
  (forall x, x ∈ names e -> l1 !! x = l2 !! x) -> eval l1 e = eval l2 e.
Proof.
  induction e as [x | c | e IH items | l IHl op r IHr | l IHl r IHr];
    intros H; cbn [eval names] in *.
  - rewrite (H x) by apply list_elem_of_here. reflexivity.
  - reflexivity.
  - rewrite IH by exact H. reflexivity.
  - rewrite IHl, IHr by (intros x Hx; apply H, elem_of_app; auto). reflexivity.
  - rewrite IHl, IHr by (intros x Hx; apply H, elem_of_app; auto). reflexivity.
Qed.

(** X6. The outcome of a rule's condition depends on the context only
    through the attributes the condition names: two contexts that agree on
    them give the same outcome, whatever else they hold. *)
Theorem condition_reads_only_its_names rule action_type ctx1 ctx2 :
  (forall x, x ∈ names (SafetyRule.condition rule) -> ctx1 !! x = ctx2 !! x) ->
  _evaluate_rule_condition rule action_type ctx1
  = _evaluate_rule_condition rule action_type ctx2.
Proof.
  intros H. unfold _evaluate_rule_condition.
  rewrite (eval_ext (eval_context action_type ctx1) (eval_context action_type ctx2));
    [reflexivity |].
  intros x Hx. unfold eval_context. rewrite !lookup_union, (H x Hx). reflexivity.
Qed.

(** X6 (witness): rule fl_002 reads [target_type] only. *)
Lemma condition_reads_only_its_names_witness :
  _evaluate_rule_condition fl_002 "network_scan" {[ "target_type" := VStr "hospital" ]}
  = _evaluate_rule_condition fl_002 "network_scan" hospital_mission.
Proof.
  apply condition_reads_only_its_names.
  intros x Hx. apply list_elem_of_singleton in Hx as ->.
  vm_compute. reflexivity.
Defined.

Lemma check_rule_ineffective a ctx t rule :
  effective rule = false -> check_rule a ctx t rule = Ok t.
Proof.
  unfold effective, check_rule. intros H.
  destruct (SafetyRule.enabled rule); cbn [negb andb] in *; [| reflexivity].
  apply orb_false_elim in H as [H H3]. apply orb_false_elim in H as [H1 H2].
  rewrite H1, H2, H3. destruct (truthy _); reflexivity.
Qed.

Lemma check_rules_filter a ctx (entries : list (string * SafetyRule.t)) : forall t,
  for_each (check_rule a ctx) (map snd entries) t
  = for_each (check_rule a ctx)
      (map snd (List.filter (fun entry => effective (snd entry)) entries)) t.
Proof.
  induction entries as [| [k rule] entries IH]; intros t; [reflexivity |].
  cbn [map List.filter snd]. destruct (effective rule) eqn:E.
  - cbn [map snd for_each]. destruct (check_rule a ctx t rule); cbn [bind]; auto.
  - cbn [for_each]. rewrite check_rule_ineffective by exact E. cbn [bind]. apply IH.
Qed.

(** X7. Rules that are disabled, and rules whose action is none of [block],
    [require_approval] and [require_justification] (the core rules with
    actions [allow], [allow_with_logging], [limit_operations] and
    [require_encryption]), have no influence: taking them out of the
    catalogue changes neither the outcome nor the verdict of any check. *)
Theorem ineffective_rules_ignored now action_type context self :
  fst (validate_action now action_type context (only_effective self))
  = fst (validate_action now action_type context self) /\
  Forall (fun rule => effective rule = true) (map snd (rules (only_effective self))) /\
  map (fun rule => SafetyRule.id rule)
      (List.filter (fun rule => negb (effective rule)) all_rules)
  = ["sl_001"; "sl_002"; "tl_002"; "tl_004"].
Proof.
  split; [| split].
  - unfold validate_action.
    cbn [only_effective emergency_stop_active].
    destruct (emergency_stop_active self); [reflexivity |].
    assert (E : run_checks (only_effective self) action_type context
                = run_checks self action_type context).
    { unfold run_checks, check_prohibited. cbv zeta.
      cbn [only_effective prohibited_actions dangerous_patterns rules].
      destruct (for_each (check_pattern _) _ _); cbn [bind]; [| reflexivity].
      symmetry. apply check_rules_filter. }
    rewrite E. destruct (run_checks self action_type context); reflexivity.
  - cbn [only_effective rules]. apply Forall_forall. intros rule Hrule.
    apply list_elem_of_In, in_map_iff in Hrule as ([k r] & <- & Hin).
    apply filter_In in Hin as [_ H]. exact H.
  - reflexivity.
Qed.

(** ** Contexts that touch no rule *)

Ltac absent x H :=
  unfold fires; rewrite (evaluate_missing _ _ _ x);
  [ reflexivity | reflexivity | vm_compute; repeat constructor
  | discriminate | apply H; vm_compute; repeat constructor ].

Lemma quiet_rules a b ctx :
  eval_context a ctx !! "action_type" = Some (VStr b) ->
  in_membership_list b = false ->
  b <> "modify_logs" ->
  (forall x, x ∈ attribute_names -> ctx !! x = None) ->
  Forall (fun rule => fires rule a ctx = false) all_rules.
Proof.
  intros Hact Hlist Hne Habs.
  repeat apply Forall_cons_2; [ | | | | | | | | | | | | | apply Forall_nil_2 ].
  - unfold fires, _evaluate_rule_condition, fl_001, name_in.
    cbn [SafetyRule.enabled SafetyRule.condition eval andb].
    rewrite Hact. cbn [bind truthy].
    apply (in_membership_list_false b fl_001 (EName "action_type")); [exact Hlist | | reflexivity].
    apply list_elem_of_here.
  - absent "target_type" Habs.
  - absent "data_type" Habs.
  - absent "operation_type" Habs.
  - absent "involves_private_data" Habs.
  - absent "operator_authenticated" Habs.
  - absent "emergency_override" Habs.
  - absent "command_violates_first_law" Habs.
  - absent "operator_permission_level" Habs.
  - absent "action_threatens_system" Habs.
  - absent "resource_usage" Habs.
  - unfold fires, _evaluate_rule_condition, tl_003.
    cbn [SafetyRule.enabled SafetyRule.condition eval andb].
    rewrite Hact. cbn [bind py_compare py_eq truthy].
    apply String.eqb_neq, Hne.
  - absent "communication_insecure" Habs.
Qed.

Lemma quiet_check now a b ctx self :
  initialized self ->
  emergency_stop_active self = false ->
  a ∉ core_prohibited_actions ->
  eval_context a ctx !! "action_type" = Some (VStr b) ->
  in_membership_list b = false ->
  b <> "modify_logs" ->
  ctx !! "description" = None ->
  (forall x, x ∈ attribute_names -> ctx !! x = None) ->
  validate_action now a ctx self
  = (Ok safe_check, _log_safety_check now a ctx safe_check self).
Proof.
  intros (Hrules & Hproh & Hpats) Hstop Ha Hact Hlist Hne Hdesc Habs.
  unfold validate_action, run_checks, check_prohibited. rewrite Hstop. cbv zeta.
  rewrite Hproh, bool_decide_eq_false_2 by exact Ha.
  rewrite Hdesc. cbn [default].
  rewrite check_patterns_quiet by (rewrite Hpats; vm_compute; reflexivity).
  cbn [bind]. rewrite Hrules.
  rewrite check_rules_quiet by (eapply quiet_rules; eassumption).
  reflexivity.
Qed.

(** X8. With the emergency stop inactive, [validate_mission_execution]
    approves every mission, whatever its id, status, priority and operator:
    the context it builds holds nothing a rule or signature reads. The
    verdict is [safe_check], and it is logged. *)
Theorem mission_execution_always_approved now id status priority assigned_operator self :
  initialized self ->
  emergency_stop_active self = false ->
  validate_mission_execution now id status priority assigned_operator self
  = (Ok safe_check,
     _log_safety_check now "mission_execution"
       (execution_context id status priority assigned_operator) safe_check self).
Proof.
  intros Hinit Hstop. unfold validate_mission_execution.
  apply (quiet_check now "mission_execution" "mission_execution");
    [exact Hinit | exact Hstop | | | reflexivity | discriminate | | ].
  - apply (bool_decide_eq_false_1 _). vm_compute. reflexivity.
  - apply eval_context_action_type. unfold execution_context.
    rewrite !lookup_insert_ne by discriminate. apply lookup_empty.
  - unfold execution_context.
    rewrite !lookup_insert_ne by discriminate. apply lookup_empty.
  - intros x Hx. unfold attribute_names in Hx. unfold execution_context.
    repeat (apply elem_of_cons in Hx as [-> | Hx];
            [rewrite !lookup_insert_ne by discriminate; apply lookup_empty |]).
    inversion Hx.
Qed.

(** X8 (witness): a failed mission of top priority on a fresh engine. *)
Lemma mission_execution_always_approved_witness :
  validate_mission_execution 9 (VInt 7) (VStr "failed") (VInt 1) VNone engine0
  = (Ok safe_check,
     _log_safety_check 9 "mission_execution"
       (execution_context (VInt 7) (VStr "failed") (VInt 1) VNone) safe_check engine0).
Proof.
  apply (mission_execution_always_approved 9 (VInt 7) (VStr "failed") (VInt 1) VNone
           engine0 initialized_engine0).
  reflexivity.
Defined.

(** X9. The rules test the context's own [action_type] when it has one: an
    action type that is not prohibited is approved at level SAFE as soon as
    the context names a harmless [action_type] and nothing else that a rule
    or signature reads, even if the action itself is one a rule blocks. *)
Theorem context_action_type_overrides now action_type named context self :
  initialized self ->
  emergency_stop_active self = false ->
  action_type ∉ core_prohibited_actions ->
  context !! "action_type" = Some (VStr named) ->
  in_membership_list named = false ->
  named <> "modify_logs" ->
  context !! "description" = None ->
  (forall x, x ∈ attribute_names -> context !! x = None) ->
  validate_action now action_type context self
  = (Ok safe_check, _log_safety_check now action_type context safe_check self).
Proof.
  intros Hinit Hstop Ha Hnamed Hlist Hne Hdesc Habs.
  apply (quiet_check now action_type named); try assumption.
  unfold eval_context. apply lookup_union_Some_l, Hnamed.
Qed.

(** X9 (witness): [modify_logs], which rule tl_003 blocks, passes under the
    name [read_logs]. *)
Lemma context_action_type_overrides_witness :
  validate_action 0 "modify_logs" {[ "action_type" := VStr "read_logs" ]} engine0
  = (Ok safe_check,
     _log_safety_check 0 "modify_logs" {[ "action_type" := VStr "read_logs" ]}
       safe_check engine0).
Proof.
  apply (context_action_type_overrides 0 "modify_logs" "read_logs"
           {[ "action_type" := VStr "read_logs" ]} engine0 initialized_engine0).
  - reflexivity.
  - apply (bool_decide_eq_false_1 _). vm_compute. reflexivity.
  - vm_compute. reflexivity.
  - vm_compute. reflexivity.
  - discriminate.
  - vm_compute. reflexivity.
  - intros x Hx. unfold attribute_names in Hx.
    repeat (apply elem_of_cons in Hx as [-> | Hx]; [vm_compute; reflexivity |]).
    inversion Hx.
Defined.

(** ** The objectives of a mission *)

Lemma for_each_ext {A S} (f g : S -> A -> result S) xs :
  (forall x s, x ∈ xs -> f s x = g s x) ->
  forall s, for_each f xs s = for_each g xs s.
Proof.
  induction xs as [| x xs IH]; intros H s; [reflexivity |].
  cbn [for_each]. rewrite (H x s) by apply list_elem_of_here.
  destruct (g s x); cbn [bind]; [| reflexivity].
  apply IH. intros y s' Hy. apply H, list_elem_of_further, Hy.
Qed.

Lemma core_rules_ignore_objective :
  Forall (fun rule => "objective" ∉ names (SafetyRule.condition rule)) all_rules.
Proof.
  repeat constructor; vm_compute; intros H;
    repeat (apply elem_of_cons in H as [H | H]; [discriminate H |]); inversion H.
Qed.

(** The outcome of a check does not depend on the clock, the log, or the
    [objective] entry of the context. *)
Lemma verdict_agree n1 n2 a ctx1 ctx2 s1 s2 :
  initialized s2 ->
  same_config s1 s2 ->
  (forall x, x <> "objective" -> ctx1 !! x = ctx2 !! x) ->
  fst (validate_action n1 a ctx1 s1) = fst (validate_action n2 a ctx2 s2).
Proof.
  intros (Hrules & _ & _) (Hr & Hp & Hd & Hf) Hctx.
  unfold validate_action. rewrite Hf.
  destruct (emergency_stop_active s2); [reflexivity |].
  assert (E : run_checks s1 a ctx1 = run_checks s2 a ctx2).
  { unfold run_checks, check_prohibited. cbv zeta. rewrite Hr, Hp, Hd.
    rewrite (Hctx "description") by discriminate.
    destruct (for_each (check_pattern _) _ _); cbn [bind]; [| reflexivity].
    apply for_each_ext. intros rule t Hrule. unfold check_rule.
    replace (_evaluate_rule_condition rule a ctx1)
      with (_evaluate_rule_condition rule a ctx2); [reflexivity |].
    unfold _evaluate_rule_condition.
    rewrite (eval_ext (eval_context a ctx1) (eval_context a ctx2)); [reflexivity |].
    intros x Hx. unfold eval_context. rewrite !lookup_union.
    rewrite (Hctx x); [reflexivity |]. intros ->.
    pose proof core_rules_ignore_objective as Hcore.
    rewrite Forall_forall in Hcore. rewrite Hrules in Hrule.
    exact (Hcore rule Hrule Hx). }
  rewrite E. destruct (run_checks s2 a ctx2); [| reflexivity].
  cbn [fst]. unfold verdict, approval.
  rewrite (Hctx "operator_approved") by discriminate. reflexivity.
Qed.

Lemma validate_action_config now a ctx self :
  same_config (snd (validate_action now a ctx self)) self.
Proof.
  unfold validate_action, same_config.
  destruct (emergency_stop_active self) eqn:E; [cbn; auto |].
  destruct (run_checks self a ctx); cbn; auto.
Qed.

Lemma objective_context_agree m o1 o2 x :
  x <> "objective" -> objective_context m o1 !! x = objective_context m o2 !! x.
Proof.
  intros Hx. unfold objective_context.
  rewrite !lookup_union, !(lookup_insert_ne _ "objective") by congruence.
  reflexivity.
Qed.

Lemma check_objectives_uniform clock m self0 objectives :
  initialized self0 ->
  forall i self all_checks self',
    same_config self self0 ->
    check_objectives clock i m objectives self = (Ok all_checks, self') ->
    Forall (fun c => fst (validate_action 0 "mission_objective"
                            (objective_context m VNone) self0) = Ok c) all_checks.
Proof.
  intros Hinit. induction objectives as [| o rest IH];
    intros i self cs self' Hcfg H; cbn [check_objectives] in H.
  - injection H as <- _. constructor.
  - pose proof (verdict_agree (clock i) 0 "mission_objective"
                  (objective_context m o) (objective_context m VNone) self self0
                  Hinit Hcfg (objective_context_agree m o VNone)) as Hsame.
    pose proof (validate_action_config (clock i) "mission_objective"
                  (objective_context m o) self) as Hcfg1.
    destruct (validate_action (clock i) _ _ self) as [[check | e] s1]; [| discriminate].
    cbn [fst snd] in *.
    destruct (check_objectives clock (S i) m rest s1) as [[checks | e] s2] eqn:E;
      [| discriminate].
    injection H as <- _. constructor; [symmetry; exact Hsame |].
    eapply IH; [| exact E].
    destruct Hcfg1 as (? & ? & ? & ?), Hcfg as (? & ? & ? & ?).
    repeat split; congruence.
Qed.

(** X10. On an initialised engine the objectives of a mission all get the
    same verdict: what an objective says is never examined, only the
    mission's own fields are. *)
Theorem objectives_share_verdict clock mission_data self objectives all_checks self' c1 c2 :
  initialized self ->
  check_objectives clock 0 mission_data objectives self = (Ok all_checks, self') ->
  c1 ∈ all_checks ->
  c2 ∈ all_checks ->
  c1 = c2.
Proof.
  intros Hinit H H1 H2.
  assert (Hcfg : same_config self self) by (repeat split).
  pose proof (check_objectives_uniform clock mission_data self objectives Hinit
                0%nat self all_checks self' Hcfg H) as Hall.
  rewrite Forall_forall in Hall.
  pose proof (Hall c1 H1) as E1. pose proof (Hall c2 H2) as E2. congruence.
Qed.

(** X10 (witness): the objective that names a hospital and ransomware gets
    the verdict of the harmless objective before it. *)
Lemma objectives_share_verdict_witness :
  exists c1 c2,
    fst (check_objectives (fun _ => 0) 0 mixed_mission two_objectives engine0)
    = Ok [c1; c2] /\ c1 = c2.
Proof.
  exists safe_check, safe_check. split; [vm_compute; reflexivity |].
  apply (objectives_share_verdict (fun _ => 0) mixed_mission engine0 two_objectives
           [safe_check; safe_check]
           (snd (check_objectives (fun _ => 0) 0 mixed_mission two_objectives engine0))
           safe_check safe_check initialized_engine0).
  - vm_compute. reflexivity.
  - apply list_elem_of_here.
  - apply list_elem_of_further, list_elem_of_here.
Defined.

(** ** Approval on justification *)

Lemma for_each_app {A S} (f : S -> A -> result S) xs ys : forall s,
  for_each f (xs ++ ys) s = (do s' <- for_each f xs s; for_each f ys s').
Proof.
  induction xs as [| x xs IH]; intros s; [reflexivity |].
  cbn [app for_each]. destruct (f s x); cbn [bind]; [apply IH | reflexivity].
Qed.

Lemma for_each_cons {A S} (f : S -> A -> result S) x xs s :
  for_each f (x :: xs) s = (do s' <- f s x; for_each f xs s').
Proof. reflexivity. Qed.

Lemma quiet_rules_around_privacy a ctx :
  ctx !! "action_type" = None ->
  in_membership_list a = false ->
  a <> "modify_logs" ->
  (forall x, x ∈ other_attribute_names -> ctx !! x = None) ->
  Forall (fun rule => fires rule a ctx = false) [fl_001; fl_002; fl_003; fl_004] /\
  Forall (fun rule => fires rule a ctx = false)
         [sl_001; sl_002; sl_003; sl_004; tl_001; tl_002; tl_003; tl_004].
Proof.
  intros Hact Hlist Hne Habs.
  apply (eval_context_action_type a) in Hact.
  split; repeat apply Forall_cons_2; try apply Forall_nil_2.
  - unfold fires, _evaluate_rule_condition, fl_001, name_in.
    cbn [SafetyRule.enabled SafetyRule.condition eval andb].
    rewrite Hact. cbn [bind truthy].
    apply (in_membership_list_false a fl_001 (EName "action_type")); [exact Hlist | | reflexivity].
    apply list_elem_of_here.
  - absent "target_type" Habs.
  - absent "data_type" Habs.
  - absent "operation_type" Habs.
  - absent "operator_authenticated" Habs.
  - absent "emergency_override" Habs.
  - absent "command_violates_first_law" Habs.
  - absent "operator_permission_level" Habs.
  - absent "action_threatens_system" Habs.
  - absent "resource_usage" Habs.
  - unfold fires, _evaluate_rule_condition, tl_003.
    cbn [SafetyRule.enabled SafetyRule.condition eval andb].
    rewrite Hact. cbn [bind py_compare py_eq truthy].
    apply String.eqb_neq, Hne.
  - absent "communication_insecure" Habs.
Qed.

(** X11. When [involves_private_data] is true (in Python's sense of
    [== True]) and nothing else a rule or signature reads is present, an
    unknown action type gets a verdict at level SAFE that requires approval;
    its [approved] field is the context's [operator_approved] value as the
    caller gave it ([False] when absent), and its reason is the sentence for
    approved actions either way. *)
Theorem justification_needs_operator now action_type context v self :
  initialized self ->
  emergency_stop_active self = false ->
  action_type ∉ core_prohibited_actions ->
  in_membership_list action_type = false ->
  action_type <> "modify_logs" ->
  context !! "action_type" = None ->
  context !! "description" = None ->
  context !! "involves_private_data" = Some v ->
  py_eq v (VBool true) = true ->
  (forall x, x ∈ other_attribute_names -> context !! x = None) ->
  validate_action now action_type context self
  = (Ok (private_data_check context),
     _log_safety_check now action_type context (private_data_check context) self).
Proof.
  intros (Hrules & Hproh & Hpats) Hstop Ha Hlist Hne Hact Hdesc Hpriv Hv Habs.
  destruct (quiet_rules_around_privacy action_type context Hact Hlist Hne Habs)
    as [Hbefore Hafter].
  unfold validate_action, run_checks, check_prohibited. rewrite Hstop. cbv zeta.
  rewrite Hproh, bool_decide_eq_false_2 by exact Ha.
  rewrite Hdesc. cbn [default].
  rewrite check_patterns_quiet by (rewrite Hpats; vm_compute; reflexivity).
  cbn [bind]. rewrite Hrules.
  change all_rules
    with ([fl_001; fl_002; fl_003; fl_004]
          ++ fl_005
          :: [sl_001; sl_002; sl_003; sl_004; tl_001; tl_002; tl_003; tl_004])%list.
  rewrite for_each_app.
  rewrite check_rules_quiet by exact Hbefore. cbn [bind].
  rewrite for_each_cons.
  assert (E : _evaluate_rule_condition fl_005 action_type context = VBool true).
  { unfold _evaluate_rule_condition, fl_005, is_true.
    cbn [SafetyRule.condition eval].
    unfold eval_context. rewrite (lookup_union_Some_l _ _ _ _ Hpriv).
    cbn [bind py_compare]. rewrite Hv. reflexivity. }
  assert (E5 : forall t,
             check_rule action_type context t fl_005
             = Ok (Tally.mk (Tally.violated_laws t) (Tally.violated_rules t)
                            (Tally.safety_level t) true
                            (Tally.recommendations t
                             ++ ["Requires justification: Protect individual privacy rights"]))).
  { intros t. unfold check_rule. rewrite E. reflexivity. }
  rewrite E5. cbn [bind].
  rewrite check_rules_quiet by exact Hafter.
  reflexivity.
Qed.

(** X11 (witness): the operator's answer is the text "no", and that text is
    what the verdict carries as [approved]. *)
Lemma justification_needs_operator_witness :
  exists check,
    fst (validate_action 0 "export_report"
           (<[ "operator_approved" := VStr "no" ]> private_data_context) engine0)
    = Ok check /\
    SafetyCheck.approved check = VStr "no" /\
    SafetyCheck.requires_approval check = true.
Proof.
  exists (private_data_check (<[ "operator_approved" := VStr "no" ]> private_data_context)).
  rewrite (justification_needs_operator 0 "export_report"
             (<[ "operator_approved" := VStr "no" ]> private_data_context)
             (VBool true) engine0 initialized_engine0).
  - repeat split.
  - reflexivity.
  - apply (bool_decide_eq_false_1 _). vm_compute. reflexivity.
  - vm_compute. reflexivity.
  - discriminate.
  - vm_compute. reflexivity.
  - vm_compute. reflexivity.
  - vm_compute. reflexivity.
  - reflexivity.
  - intros x Hx. unfold other_attribute_names in Hx.
    repeat (apply elem_of_cons in Hx as [-> | Hx]; [vm_compute; reflexivity |]).
    inversion Hx.
Defined.

(** X12. The reason of a returned verdict is the sentence "Action approved -
    no safety violations detected" exactly when the verdict lists no violated
    law; whether the verdict is approved plays no part. *)
Theorem reason_follows_laws now action_type context self check self' :
  validate_action now action_type context self = (Ok check, self') ->
  (SafetyCheck.reason check = approved_reason <-> SafetyCheck.violated_laws check = []).
Proof.
  unfold validate_action. destruct (emergency_stop_active self).
  - intros [= <- _]. cbn. split; discriminate.
  - destruct (run_checks self action_type context) as [t |]; [| discriminate].
    intros [= <- _]. unfold verdict. cbn [SafetyCheck.reason SafetyCheck.violated_laws].
    rewrite list_set_nil. unfold _generate_reason.
    destruct (Tally.violated_laws t) as [| l ls].
    + split; reflexivity.
    + split; [| discriminate]. cbn. discriminate.
Qed.

(** X12 (witness): private data without the operator's approval is not
    approved, and its reason still reads "Action approved". *)
Lemma reason_follows_laws_witness :
  SafetyCheck.approved (private_data_check private_data_context) = VBool false /\
  (SafetyCheck.reason (private_data_check private_data_context) = approved_reason <->
   SafetyCheck.violated_laws (private_data_check private_data_context) = []).
Proof.
  split; [reflexivity |].
  apply (reason_follows_laws 0 "export_report" private_data_context engine0
           (private_data_check private_data_context)
           (snd (validate_action 0 "export_report" private_data_context engine0))).
  vm_compute. reflexivity.
Defined.

(** ** The pattern scan *)

Lemma lower_idempotent c : lower (lower c) = lower c.
Proof. destruct c as [[] [] [] [] [] [] [] []]; reflexivity. Qed.

Lemma lower_newline c : Ascii.eqb (lower c) "010" = Ascii.eqb c "010".
Proof. destruct c as [[] [] [] [] [] [] [] []]; reflexivity. Qed.

Lemma deriv_lower c r : deriv (lower c) r = deriv c r.
Proof.
  induction r; cbn [deriv]; try reflexivity.
  - rewrite lower_idempotent. reflexivity.
  - rewrite lower_newline. reflexivity.
  - rewrite IHr1, IHr2. reflexivity.
  - rewrite IHr1, IHr2. reflexivity.
  - rewrite IHr. reflexivity.
Qed.

Lemma match_prefix_lower s : forall r, match_prefix r (ascii_lower s) = match_prefix r s.
Proof.
  induction s as [| c s IH]; intros r; [reflexivity |].
  cbn [ascii_lower match_prefix]. rewrite deriv_lower, IH. reflexivity.
Qed.

Lemma re_search_lower r s : re_search r (ascii_lower s) = re_search r s.
Proof.
  induction s as [| c s IH]; [reflexivity |].
  change (ascii_lower (String c s)) with (String (lower c) (ascii_lower s)).
  cbn [re_search]. rewrite IH.
  change (String (lower c) (ascii_lower s)) with (ascii_lower (String c s)).
  rewrite match_prefix_lower. reflexivity.
Qed.

(** X13. Replacing the ASCII capitals A-Z of a description by the small
    letters a-z, all other characters kept, never changes whether the scan
    flags it, on any engine. (The replacement is [ascii_lower], not
    [str.lower()].) *)
Theorem scan_ignores_ascii_case self d :
  matches_pattern self (ascii_lower d) = matches_pattern self d.
Proof.
  unfold matches_pattern.
  induction (dangerous_patterns self) as [| entry pats IH]; [reflexivity |].
  cbn [existsb]. rewrite re_search_lower, IH. reflexivity.
Qed.

Lemma append_nil (q : string) : "" ++ q = q.
Proof. reflexivity. Qed.

Lemma append_cons c (s q : string) : String c s ++ q = String c (s ++ q).
Proof. reflexivity. Qed.

Lemma match_prefix_nullable r s : nullable r = true -> match_prefix r s = true.
Proof. intros H. destruct s; cbn [match_prefix]; rewrite H; reflexivity. Qed.

Lemma match_prefix_extend s q : forall r,
  match_prefix r s = true -> match_prefix r (s ++ q) = true.
Proof.
  induction s as [| c s IH]; intros r H.
  - cbn [match_prefix] in H. rewrite orb_false_r in H.
    apply match_prefix_nullable, H.
  - rewrite append_cons. cbn [match_prefix] in *.
    apply orb_true_iff in H as [H | H]; [rewrite H; reflexivity |].
    rewrite (IH _ H). apply orb_true_r.
Qed.

Lemma re_search_prefix r s : match_prefix r s = true -> re_search r s = true.
Proof. intros H. destruct s; cbn [re_search]; rewrite H; reflexivity. Qed.

Lemma re_search_extend_right r s q :
  re_search r s = true -> re_search r (s ++ q) = true.
Proof.
  induction s as [| c s IH]; intros H.
  - cbn [re_search] in H. rewrite orb_false_r in H.
    apply re_search_prefix, (match_prefix_extend "" q), H.
  - rewrite append_cons. cbn [re_search] in *.
    apply orb_true_iff in H as [H | H].
    + apply (match_prefix_extend (String c s) q) in H.
      rewrite append_cons in H. rewrite H. reflexivity.
    + rewrite (IH H). apply orb_true_r.
Qed.

Lemma re_search_extend_left r p s :
  re_search r s = true -> re_search r (p ++ s) = true.
Proof.
  intros H. induction p as [| c p IH]; [exact H |].
  rewrite append_cons. cbn [re_search]. rewrite IH. apply orb_true_r.
Qed.

(** X14. A description that is flagged stays flagged whatever text is put
    before and after it. *)
Theorem scan_finds_embedded self before d behind :
  matches_pattern self d = true ->
  matches_pattern self (before ++ d ++ behind) = true.
Proof.
  unfold matches_pattern. intros H.
  apply existsb_exists in H as (entry & Hin & H).
  apply existsb_exists. exists entry. split; [exact Hin |].
  apply re_search_extend_left, re_search_extend_right, H.
Qed.

(** X14 (witness): the ransomware signature inside a sentence. *)
Lemma scan_finds_embedded_witness :
  matches_pattern engine0 ("weekly report: " ++ "RansomWare" ++ " drill completed") = true.
Proof.
  apply (scan_finds_embedded engine0 "weekly report: " "RansomWare" " drill completed").
  vm_compute. reflexivity.
Defined.

(** ** The rule registry *)

Lemma dict_get_set_ne {A} k k' (v : A) d :
  k <> k' -> dict_get k' (dict_set k v d) = dict_get k' d.
Proof.
  intros Hne. induction d as [| [k0 v0] d IH]; cbn [dict_set dict_get].
  - destruct (String.eqb_spec k' k); [congruence | reflexivity].
  - destruct (String.eqb_spec k k0) as [-> | Hk]; cbn [dict_get].
    + destruct (String.eqb_spec k' k0); [congruence | reflexivity].
    + rewrite IH. reflexivity.
Qed.

Lemma dict_set_keys {A} k (v : A) d :
  map fst (dict_set k v d)
  = match dict_get k d with
    | Some _ => map fst d
    | None => (map fst d ++ [k])%list
    end.
Proof.
  induction d as [| [k0 v0] d IH]; cbn [dict_set dict_get map fst app]; [reflexivity |].
  destruct (String.eqb_spec k k0) as [-> | Hk]; cbn [map fst]; [reflexivity |].
  rewrite IH. destruct (dict_get k d); reflexivity.
Qed.

Lemma dict_set_same {A} k (v : A) d : dict_get k d = Some v -> dict_set k v d = d.
Proof.
  induction d as [| [k0 v0] d IH]; cbn [dict_set dict_get]; [discriminate |].
  destruct (String.eqb_spec k k0) as [-> | Hk].
  - intros [= ->]. reflexivity.
  - intros H. rewrite IH by exact H. reflexivity.
Qed.

(** X15. Registering a rule stores it under its id and leaves every other
    id as it was. When the id is already taken the old rule is replaced in
    place, without any error, and the order of evaluation is unchanged;
    otherwise the rule goes to the end of that order. Nothing else in the
    engine changes. *)
Theorem register_rule_overwrites rule self :
  dict_get (SafetyRule.id rule) (rules (register_rule rule self)) = Some rule /\
  (forall k, k <> SafetyRule.id rule ->
             dict_get k (rules (register_rule rule self)) = dict_get k (rules self)) /\
  map fst (rules (register_rule rule self))
  = match dict_get (SafetyRule.id rule) (rules self) with
    | Some _ => map fst (rules self)
    | None => (map fst (rules self) ++ [SafetyRule.id rule])%list
    end /\
  prohibited_actions (register_rule rule self) = prohibited_actions self /\
  dangerous_patterns (register_rule rule self) = dangerous_patterns self /\
  emergency_stop_active (register_rule rule self) = emergency_stop_active self /\
  safety_logs (register_rule rule self) = safety_logs self.
Proof.
  cbn [register_rule rules prohibited_actions dangerous_patterns
       emergency_stop_active safety_logs].
  repeat split.
  - apply dict_get_set.
  - intros k Hk. apply dict_get_set_ne. congruence.
  - apply dict_set_keys.
Qed.

Lemma load_dict_get_ne rs : forall d k,
  k ∉ map SafetyRule.id rs -> dict_get k (load_dict rs d) = dict_get k d.
Proof.
  induction rs as [| r rs IH]; intros d k Hk; [reflexivity |].
  cbn [map] in Hk. apply not_elem_of_cons in Hk as [Hne Hk].
  unfold load_dict. cbn [fold_left]. fold (load_dict rs (dict_set (SafetyRule.id r) r d)).
  rewrite IH by exact Hk. apply dict_get_set_ne. congruence.
Qed.

Lemma load_dict_get rs : forall d r,
  NoDup (map SafetyRule.id rs) -> r ∈ rs ->
  dict_get (SafetyRule.id r) (load_dict rs d) = Some r.
Proof.
  induction rs as [| r0 rs IH]; intros d r Hnd Hr; [inversion Hr |].
  cbn [map] in Hnd. apply NoDup_cons in Hnd as [Hfresh Hnd].
  unfold load_dict. cbn [fold_left]. fold (load_dict rs (dict_set (SafetyRule.id r0) r0 d)).
  apply elem_of_cons in Hr as [-> | Hr].
  - rewrite load_dict_get_ne by exact Hfresh. apply dict_get_set.
  - apply IH; assumption.
Qed.

Lemma load_dict_fixed rs : forall d,
  (forall r, r ∈ rs -> dict_get (SafetyRule.id r) d = Some r) -> load_dict rs d = d.
Proof.
  induction rs as [| r rs IH]; intros d H; [reflexivity |].
  unfold load_dict. cbn [fold_left]. fold (load_dict rs (dict_set (SafetyRule.id r) r d)).
  rewrite dict_set_same by (apply H, list_elem_of_here).
  apply IH. intros r' Hr'. apply H, list_elem_of_further, Hr'.
Qed.

Lemma load_core_rules_spec self :
  _load_core_rules self
  = {| rules := load_dict all_rules (rules self);
       prohibited_actions := prohibited_actions self;
       dangerous_patterns := dangerous_patterns self;
       emergency_stop_active := emergency_stop_active self;
       safety_logs := safety_logs self |}.
Proof.
  unfold _load_core_rules, load_dict. generalize all_rules. intros rs.
  revert self. induction rs as [| r rs IH]; intros self; [destruct self; reflexivity |].
  cbn [fold_left]. rewrite IH. reflexivity.
Qed.

Lemma all_rules_ids_distinct : NoDup (map SafetyRule.id all_rules).
Proof. apply (bool_decide_eq_true_1 _). vm_compute. reflexivity. Qed.

(** X16. [initialize] may be run on any engine, also one that is in use: it
    keeps the emergency-stop flag and the audit log, every core rule is
    afterwards registered under its id, and running it a second time changes
    nothing. *)
Theorem initialize_idempotent self :
  initialize (initialize self) = initialize self /\
  emergency_stop_active (initialize self) = emergency_stop_active self /\
  safety_logs (initialize self) = safety_logs self /\
  (forall rule, rule ∈ all_rules ->
                dict_get (SafetyRule.id rule) (rules (initialize self)) = Some rule).
Proof.
  unfold initialize, _initialize_dangerous_patterns, _initialize_prohibited_actions.
  rewrite !load_core_rules_spec.
  cbn [rules prohibited_actions dangerous_patterns emergency_stop_active safety_logs].
  repeat split.
  - f_equal. apply load_dict_fixed. intros r Hr.
    apply load_dict_get; [apply all_rules_ids_distinct | exact Hr].
  - intros rule Hrule. apply load_dict_get; [apply all_rules_ids_distinct | exact Hrule].
Qed.

(** ** Status reports and what the log records *)

Lemma check_objectives_frame clock m objectives : forall i self,
  rules (snd (check_objectives clock i m objectives self)) = rules self /\
  prohibited_actions (snd (check_objectives clock i m objectives self))
  = prohibited_actions self /\
  dangerous_patterns (snd (check_objectives clock i m objectives self))
  = dangerous_patterns self.
Proof.
  induction objectives as [| o rest IH]; intros i self; [auto |].
  cbn [check_objectives].
  pose proof (validate_action_config (clock i) "mission_objective"
                (objective_context m o) self) as (R & P & D & _).
  destruct (validate_action _ _ _ self) as [[check | e] s1]; cbn [snd] in *; [| auto].
  specialize (IH (S i) s1).
  destruct (check_objectives clock (S i) m rest s1) as [[checks | e] s2];
    cbn [snd] in *; destruct IH as (? & ? & ?); repeat split; congruence.
Qed.

Lemma after_frame c self :
  rules (after c self) = rules self /\
  prohibited_actions (after c self) = prohibited_actions self /\
  dangerous_patterns (after c self) = dangerous_patterns self.
Proof.
  destruct c; cbn [after].
  - destruct (validate_action_config now action_type context self) as (? & ? & ? & _); auto.
  - unfold validate_mission. destruct (iterate _) as [objectives |]; [| auto].
    pose proof (check_objectives_frame clock mission_data objectives 0%nat self) as H.
    destruct (check_objectives _ _ _ _ _) as [[checks | e] s]; exact H.
  - unfold validate_mission_execution.
    destruct (validate_action_config now "mission_execution"
                (execution_context id status priority assigned_operator) self)
      as (? & ? & ? & _); auto.
  - auto.
  - auto.
Qed.

Lemma run_frame calls : forall self,
  rules (run calls self) = rules self /\
  prohibited_actions (run calls self) = prohibited_actions self /\
  dangerous_patterns (run calls self) = dangerous_patterns self.
Proof.
  induction calls as [| c calls IH]; intros self; [auto |].
  unfold run. cbn [fold_left]. fold (run calls (after c self)).
  destruct (IH (after c self)) as (? & ? & ?), (after_frame c self) as (? & ? & ?).
  repeat split; congruence.
Qed.

Lemma count_recent_le clock logs : forall i,
  (count_recent clock i logs <= length logs)%nat.
Proof.
  induction logs as [| log rest IH]; intros i; cbn [count_recent length]; [lia |].
  specialize (IH (S i)). destruct (is_recent (clock i) log); lia.
Qed.

(** X17. Whatever calls were made on an initialised engine, and whatever
    the clock reads at each log entry, [get_status] reports 13 rules and 19
    prohibited actions, the current emergency-stop flag, and a number of
    recent checks that is at most the length of the log and so at most
    10000. *)
Theorem status_of_running_engine calls clock :
  Status.active (get_status clock (run calls engine0)) = true /\
  Status.emergency_stop (get_status clock (run calls engine0))
  = emergency_stop_active (run calls engine0) /\
  Status.rules_count (get_status clock (run calls engine0)) = 13%nat /\
  Status.prohibited_actions (get_status clock (run calls engine0)) = 19%nat /\
  (Status.recent_checks (get_status clock (run calls engine0))
   <= length (safety_logs (run calls engine0)))%nat /\
  Z.of_nat (Status.recent_checks (get_status clock (run calls engine0))) <= 10000.
Proof.
  destruct (run_frame calls engine0) as (R & P & _).
  pose proof (bounded_run calls engine0) as Hb.
  pose proof (count_recent_le clock (safety_logs (run calls engine0)) 0%nat) as Hlen.
  assert (Hb0 : bounded engine0) by (unfold bounded; cbn; lia).
  specialize (Hb Hb0). unfold bounded in Hb.
  unfold get_status.
  cbn [Status.active Status.emergency_stop Status.rules_count
       Status.prohibited_actions Status.recent_checks].
  rewrite R, P.
  split; [reflexivity |]. split; [reflexivity |]. split; [reflexivity |].
  split; [vm_compute; reflexivity |]. split; [exact Hlen |]. lia.
Qed.

Lemma timedelta_seconds_periodic delta k :
  timedelta_seconds (delta + k * day) = timedelta_seconds delta.
Proof.
  unfold timedelta_seconds, day. rewrite Z_mod_plus_full. reflexivity.
Qed.

Lemma is_recent_periodic now k log : is_recent (now + k * day) log = is_recent now log.
Proof.
  unfold is_recent.
  replace (now + k * day - LogEntry.timestamp log)
    with (now - LogEntry.timestamp log + k * day) by lia.
  rewrite timedelta_seconds_periodic. reflexivity.
Qed.

Lemma count_recent_periodic clock shift logs : forall i,
  count_recent (fun j => clock j + shift j * day) i logs = count_recent clock i logs.
Proof.
  induction logs as [| log rest IH]; intros i; cbn [count_recent]; [reflexivity |].
  rewrite is_recent_periodic, IH. reflexivity.
Qed.

(** X18. [get_status] counts an entry as recent when the seconds part of its
    age is under 3600, and that part starts again from zero every 24 hours:
    moving each of the clock readings it takes by a whole number of days,
    forwards or backwards and not necessarily the same for each entry,
    leaves the count of recent checks as it is. An entry read exactly one
    day after it was written therefore passes the test like one read the
    instant it was written. *)
Theorem recent_checks_wraps_daily clock shift self :
  Status.recent_checks (get_status (fun j => clock j + shift j * day) self)
  = Status.recent_checks (get_status clock self) /\
  (forall log, is_recent (LogEntry.timestamp log + day) log = true).
Proof.
  split.
  - unfold get_status. cbn [Status.recent_checks]. apply count_recent_periodic.
  - intros log. replace (LogEntry.timestamp log + day)
      with (LogEntry.timestamp log + 1 * day) by lia.
    rewrite is_recent_periodic. unfold is_recent.
    replace (LogEntry.timestamp log - LogEntry.timestamp log) with 0 by lia.
    reflexivity.
Qed.

Lemma marked_trim logs :
  marked_entries_are_stops logs -> marked_entries_are_stops (trim_logs logs).
Proof.
  unfold marked_entries_are_stops. rewrite trim_logs_drop. apply Forall_drop.
Qed.

Lemma marked_validate_action now a ctx self :
  marked_entries_are_stops (safety_logs self) ->
  marked_entries_are_stops (safety_logs (snd (validate_action now a ctx self))).
Proof.
  intros H. unfold validate_action.
  destruct (emergency_stop_active self) eqn:E; [exact H |].
  destruct (run_checks self a ctx); [| exact H].
  cbn [snd _log_safety_check safety_logs]. apply marked_trim.
  apply Forall_app. split; [exact H |].
  constructor; [| constructor]. cbn [LogEntry.emergency_stop_active].
  rewrite E. discriminate.
Qed.

Lemma marked_check_objectives clock m objectives : forall i self,
  marked_entries_are_stops (safety_logs self) ->
  marked_entries_are_stops (safety_logs (snd (check_objectives clock i m objectives self))).
Proof.
  induction objectives as [| o rest IH]; intros i self H; [exact H |].
  cbn [check_objectives].
  pose proof (marked_validate_action (clock i) "mission_objective"
                (objective_context m o) self H) as Hv.
  destruct (validate_action _ _ _ self) as [[check | e] s1]; cbn [snd] in *; [| exact Hv].
  specialize (IH (S i) s1 Hv).
  destruct (check_objectives clock (S i) m rest s1) as [[checks | e] s2]; exact IH.
Qed.

Lemma marked_after c self :
  marked_entries_are_stops (safety_logs self) ->
  marked_entries_are_stops (safety_logs (after c self)).
Proof.
  intros H. destruct c; cbn [after].
  - apply marked_validate_action, H.
  - unfold validate_mission. destruct (iterate _) as [objectives |]; [| exact H].
    pose proof (marked_check_objectives clock mission_data objectives 0%nat self H) as Hc.
    destruct (check_objectives _ _ _ _ _) as [[checks | e] s]; exact Hc.
  - apply marked_validate_action, H.
  - unfold emergency_stop. cbn [_log_safety_check safety_logs set_emergency_stop
                                emergency_stop_active].
    apply marked_trim, Forall_app. split; [exact H |].
    constructor; [| constructor]. intros _. split; reflexivity.
  - exact H.
Qed.

(** X19. Whatever calls were made on an initialised engine, the only log
    entries marked [emergency_stop_active] are the records that
    [emergency_stop] writes about itself: no verdict of [validate_action],
    [validate_mission] or [validate_mission_execution] is ever logged with
    the mark. *)
Theorem marked_entries_invariant calls :
  marked_entries_are_stops (safety_logs (run calls engine0)).
Proof.
  assert (H : forall self, marked_entries_are_stops (safety_logs self) ->
                           marked_entries_are_stops (safety_logs (run calls self))).
  { induction calls as [| c calls IH]; intros self Hs; [exact Hs |].
    unfold run. cbn [fold_left]. apply IH, marked_after, Hs. }
  apply H. constructor.
Qed.

(** ** Stopping and resuming *)

(** X20. An emergency stop followed by its deactivation leaves every verdict
    of [validate_action] as it was before the stop. The stop is recorded by
    one log entry; the deactivation writes none and does not depend on the
    operator id it is given. *)
Theorem stop_and_resume t_ctx t_log operator_id now action_type context self :
  emergency_stop_active self = false ->
  fst (validate_action now action_type context
         (deactivate_emergency_stop operator_id (emergency_stop t_ctx t_log self)))
  = fst (validate_action now action_type context self) /\
  safety_logs (deactivate_emergency_stop operator_id (emergency_stop t_ctx t_log self))
  = trim_logs (safety_logs self
               ++ [LogEntry.mk t_log "emergency_stop" {[ "timestamp" := VDatetime t_ctx ]}
                     emergency_stop_record true]) /\
  (forall other_id,
      deactivate_emergency_stop other_id (emergency_stop t_ctx t_log self)
      = deactivate_emergency_stop operator_id (emergency_stop t_ctx t_log self)).
Proof.
  intros Hstop. split; [| split; reflexivity].
  assert (E : run_checks
                (deactivate_emergency_stop operator_id (emergency_stop t_ctx t_log self))
                action_type context
              = run_checks self action_type context) by reflexivity.
  unfold validate_action. rewrite Hstop, E.
  change (emergency_stop_active
            (deactivate_emergency_stop operator_id (emergency_stop t_ctx t_log self)))
    with false.
  destruct (run_checks self action_type context); reflexivity.
Qed.

(** X20 (witness): [modify_logs] is refused before the stop and after the
    deactivation alike. *)
Lemma stop_and_resume_witness :
  fst (validate_action 3 "modify_logs" ∅
         (deactivate_emergency_stop "operator-1" (emergency_stop 0 1 engine0)))
  = Ok modify_logs_check.
Proof.
  rewrite (proj1 (stop_and_resume 0 1 "operator-1" 3 "modify_logs" ∅ engine0 eq_refl)).
  vm_compute. reflexivity.
Defined.

(** X21. A mission whose [objectives] entry is [None], a boolean, a number
    or a datetime cannot be iterated: [validate_mission] raises [TypeError],
    returns no verdict and leaves the engine, log included, as it was. *)
Theorem mission_objectives_not_iterable clock mission_data v self :
  mission_data !! "objectives" = Some v ->
  (forall l, v <> VList l) ->
  (forall s, v <> VStr s) ->
  (forall d, v <> VDict d) ->
  validate_mission clock mission_data self = (Raise TypeError, self).
Proof.
  intros H Hl Hs Hd. unfold validate_mission. rewrite H. cbn [default].
  destruct v; try reflexivity.
  - destruct (Hs s eq_refl).
  - destruct (Hl l eq_refl).
  - destruct (Hd d eq_refl).
Qed.

(** X21 (witness): a mission that gives [None] for its objectives. *)
Lemma mission_objectives_not_iterable_witness :
  validate_mission (fun _ => 0) {[ "objectives" := VNone ]} engine0
  = (Raise TypeError, engine0).
Proof.
  apply (mission_objectives_not_iterable (fun _ => 0) {[ "objectives" := VNone ]} VNone).
  - vm_compute. reflexivity.
  - discriminate.
  - discriminate.
  - discriminate.
Defined.

(** ** Mission verdicts and the checks of the objectives *)

(** C5 (code at the failing input). A mission that exports personal data
    should get a verdict that requires approval at level CAUTION, and one
    described as a ransomware attack a verdict at level DANGEROUS; in both
    the check of the first objective raises [TypeError] at [max], so
    [validate_mission] returns no verdict at all and logs nothing. *)
Lemma mission_with_personal_data_raises :
  validate_mission (fun _ => 0) personal_data_mission engine0 = (Raise TypeError, engine0) /\
  validate_mission (fun _ => 0) ransomware_mission engine0 = (Raise TypeError, engine0).
Proof. split; vm_compute; reflexivity. Qed.

Lemma outcome_of_config n1 n2 a ctx s1 s2 :
  same_config s1 s2 ->
  fst (validate_action n1 a ctx s1) = fst (validate_action n2 a ctx s2).
Proof.
  intros (Hr & Hp & Hd & Hf). unfold validate_action. rewrite Hf.
  destruct (emergency_stop_active s2); [reflexivity |].
  assert (E : run_checks s1 a ctx = run_checks s2 a ctx)
    by (unfold run_checks, check_prohibited; rewrite Hr, Hp, Hd; reflexivity).
  rewrite E. destruct (run_checks s2 a ctx); reflexivity.
Qed.

Lemma same_config_after_check now a ctx s self :
  same_config s self -> same_config (snd (validate_action now a ctx s)) self.
Proof.
  intros (? & ? & ? & ?).
  destruct (validate_action_config now a ctx s) as (? & ? & ? & ?).
  repeat split; congruence.
Qed.

Lemma check_objectives_return clock m self objectives all_checks :
  Forall2 (fun o c => objective_verdict m self o = Ok c) objectives all_checks ->
  forall i s, same_config s self ->
  exists s', check_objectives clock i m objectives s = (Ok all_checks, s').
Proof.
  induction 1 as [| o c rest checks Hc _ IH]; intros i s Hcfg; cbn [check_objectives].
  - eauto.
  - unfold objective_verdict in Hc.
    rewrite <- (outcome_of_config (clock i) 0 "mission_objective"
                  (objective_context m o) s self Hcfg) in Hc.
    pose proof (same_config_after_check (clock i) "mission_objective"
                  (objective_context m o) s self Hcfg) as Hcfg1.
    destruct (validate_action (clock i) _ _ s) as [r s1]. cbn [fst snd] in *. subst r.
    destruct (IH (S i) s1 Hcfg1) as [s2 ->]. eauto.
Qed.

Lemma check_objectives_raise clock m self objectives :
  Exists (fun o => exists e, objective_verdict m self o = Raise e) objectives ->
  forall i s, same_config s self ->
  exists e s', check_objectives clock i m objectives s = (Raise e, s').
Proof.
  induction objectives as [| o rest IH]; intros Hex i s Hcfg; [inversion Hex |].
  cbn [check_objectives].
  pose proof (outcome_of_config (clock i) 0 "mission_objective"
                (objective_context m o) s self Hcfg) as Hsame.
  pose proof (same_config_after_check (clock i) "mission_objective"
                (objective_context m o) s self Hcfg) as Hcfg1.
  destruct (validate_action (clock i) _ _ s) as [[c | e] s1]; cbn [fst snd] in *; [| eauto].
  apply Exists_cons in Hex as [(e & He) | Hex].
  - unfold objective_verdict in He. congruence.
  - destruct (IH Hex (S i) s1 Hcfg1) as (e & s2 & ->). eauto.
Qed.

(** X22. [validate_mission] returns a verdict exactly when the check of every
    objective does, and raises as soon as one of them raises. The verdict it
    returns aggregates the verdicts [all_checks] of the objectives, each the
    outcome of [validate_action] on that objective's context: approved exactly
    when every one of them is, level their maximum (SAFE for no objectives),
    violated laws and rules the unions, without repeats, of theirs, approval
    required exactly when one of them requires it, no recommendations. *)
Theorem mission_aggregates_objective_verdicts clock mission_data self objectives :
  iterate (default (VList []) (mission_data !! "objectives")) = Ok objectives ->
  (forall all_checks,
      Forall2 (fun o c => objective_verdict mission_data self o = Ok c)
              objectives all_checks ->
      exists v self',
        validate_mission clock mission_data self = (Ok v, self') /\
        (SafetyCheck.approved v = VBool true \/ SafetyCheck.approved v = VBool false) /\
        (SafetyCheck.approved v = VBool true <->
         forall c, c ∈ all_checks -> truthy (SafetyCheck.approved c) = true) /\
        SafetyCheck.safety_level v = max_level (map SafetyCheck.safety_level all_checks) /\
        (objectives = [] -> SafetyCheck.safety_level v = SAFE) /\
        (forall l, l ∈ SafetyCheck.violated_laws v <->
                   exists c, c ∈ all_checks /\ l ∈ SafetyCheck.violated_laws c) /\
        NoDup (SafetyCheck.violated_laws v) /\
        (forall r, r ∈ SafetyCheck.violated_rules v <->
                   exists c, c ∈ all_checks /\ r ∈ SafetyCheck.violated_rules c) /\
        NoDup (SafetyCheck.violated_rules v) /\
        (SafetyCheck.requires_approval v = true <->
         exists c, c ∈ all_checks /\ SafetyCheck.requires_approval c = true) /\
        SafetyCheck.recommendations v = []) /\
  (Exists (fun o => exists e, objective_verdict mission_data self o = Raise e) objectives ->
   exists e self', validate_mission clock mission_data self = (Raise e, self')).
Proof.
  intros Hobj. split.
  - intros all_checks Hall.
    destruct (check_objectives_return clock mission_data self objectives all_checks Hall
                0%nat self) as [self' Hchecks]; [repeat split |].
    destruct (aggregate_of_collected_checks clock mission_data self objectives all_checks
                self' Hobj Hchecks) as (v & Hv & _ & Hrest).
    exists v, self'. split; [exact Hv | exact Hrest].
  - intros Hex.
    destruct (check_objectives_raise clock mission_data self objectives Hex 0%nat self)
      as (e & self' & Hchecks); [repeat split |].
    exists e, self'. unfold validate_mission. rewrite Hobj, Hchecks. reflexivity.
Qed.

(** X22 (witness): the three objectives of [hospital_mission] are each
    refused by rule fl_002, and so is the mission. *)
Lemma mission_aggregates_objective_verdicts_witness :
  exists v self',
    validate_mission (fun _ => 0) hospital_mission engine0 = (Ok v, self') /\
    SafetyCheck.approved v = VBool false /\
    SafetyCheck.safety_level v = PROHIBITED.
Proof.
  assert (Hobj : iterate (default (VList []) (hospital_mission !! "objectives"))
                 = Ok [VStr "map the network"; VStr "list open ports";
                       VStr "write the report"])
    by (vm_compute; reflexivity).
  assert (Hall : Forall2 (fun o c => objective_verdict hospital_mission engine0 o = Ok c)
                   [VStr "map the network"; VStr "list open ports"; VStr "write the report"]
                   [hospital_check; hospital_check; hospital_check])
    by (repeat constructor; vm_compute; reflexivity).
  destruct (proj1 (mission_aggregates_objective_verdicts (fun _ => 0) hospital_mission
                     engine0 _ Hobj) _ Hall)
    as (v & self' & Hv & Hbool & Happ & Hlevel & _).
  exists v, self'. split; [exact Hv |]. split.
  - destruct Hbool as [Ht | Hf]; [| exact Hf].
    pose proof (proj1 Happ Ht hospital_check (list_elem_of_here _ _)) as Hc.
    discriminate Hc.
  - rewrite Hlevel. reflexivity.
Defined.
